(** * Copyleaks client: retry engine, token guard and status classification

    A shallow embedding of [src/Copyleaks.ts].  Asynchronous methods are
    written in a state-and-exception monad over a [World] that holds the
    network, the wall clock and the trace of observable events (requests
    sent, console output, timer waits). *)

From Equations Require Import Equations.
From Stdlib Require Import ZArith List String Bool Lia.
Import ListNotations.

Open Scope string_scope.
Open Scope Z_scope.

Set Warnings "-register-all".

(** ** Data model *)

(** Request and response bodies are JSON values. *)
Inductive Json : Type :=
| JNull
| JString (s : string)
| JNumber (z : Z)
| JObject (fields : list (string * Json)).

Definition Headers := list (string * string).

(** An axios response: [response.status], [response.headers], [response.data]. *)
Record AxiosResponse : Type := {
  status : Z;
  statusText : string;
  headers : Headers;
  data : Json
}.

(** What the requester rejects with.  [response] and [code] are optional
    fields of the error object ([undefined] is [None]). *)
Record AxiosError : Type := {
  response : option AxiosResponse;
  code : option string;
  message : string
}.

Inductive Method : Type := GET | POST | PUT | PATCH.

(** [maxBodyLength] is either left out or set to [Infinity]. *)
Inductive BodyLength : Type := Infinity.

Record AxiosRequestConfig : Type := {
  method : Method;
  url : string;
  config_data : option Json;
  config_headers : Headers;
  maxBodyLength : option BodyLength
}.

Record AxiosInstance : Type := {
  baseURL : string;
  default_headers : Headers
}.

Definition Outcome : Type := (AxiosResponse + AxiosError)%type.

(** [CopyleaksAuthToken]: only the two fields the client reads. *)
Record CopyleaksAuthToken : Type := {
  access_token : string;
  expires : string
}.

Inductive Product : Type := education | businesses.

Definition Product_to_string (p : Product) : string :=
  match p with
  | education => "education"
  | businesses => "businesses"
  end.

(** The values a method can throw: the four exception classes of
    [./models/exceptions], whatever the requester rejected with, and
    [new Error(message, { cause })]. *)
Inductive Exception : Type :=
| AuthExipredException
| UnderMaintenanceException
| RateLimitException
| CommandException (resp : AxiosResponse)
| TransportError (error : AxiosError)
| Error (msg : string) (cause : Exception).

Inductive Completion (A : Type) : Type :=
| Return (a : A)
| Throw (e : Exception).
Arguments Return {A} a.
Arguments Throw {A} e.

(** Observable events, in the order they happen. *)
Inductive Event : Type :=
| Requested (requester : AxiosInstance) (config : AxiosRequestConfig) (outcome : Outcome)
| LogRequestError (st : option Z) (retries backoff : Z)
| LogBackoff (config : AxiosRequestConfig)
| Waited (ms : Z).

(** ** The host environment

    Everything the class takes from outside the file: the HTTP adapter
    behind an axios instance, the host's [Date.parse] and time zone, and
    the constants of [./utils] and [./app.config].

    [LocalTZA t isUTC] is the offset of the host's time zone from UTC in
    milliseconds: at the instant [t] when [isUTC] is true, and at the
    local time [t] when it is false.  A local time that a clock change
    repeats or skips is read with the offset from before the change. *)
Class Host : Type := {
  Net : Type;
  adapter : AxiosInstance -> AxiosRequestConfig -> Net -> Outcome * Net;
  Date_parse : string -> option Z;
  LocalTZA : Z -> bool -> Z;
  UNDER_MAINTENANCE_STATUS : Z;
  RATE_LIMIT_STATUS : Z;
  API_SERVER_URI : string;
  IDENTITY_SERVER_URI : string;
  USER_AGENT : string
}.

Section Client.

Context {host : Host}.

Record World : Type := {
  net : Net;
  clock : Z;
  trace : list Event
}.

Definition M (A : Type) : Type := World -> Completion A * World.

Definition ret {A} (a : A) : M A := fun w => (Return a, w).

Definition throw {A} (e : Exception) : M A := fun w => (Throw e, w).

Definition bind {A B} (m : M A) (k : A -> M B) : M B :=
  fun w =>
    match m w with
    | (Return a, w') => k a w'
    | (Throw e, w') => (Throw e, w')
    end.

Definition try_catch {A} (m : M A) (handler : Exception -> M A) : M A :=
  fun w =>
    match m w with
    | (Return a, w') => (Return a, w')
    | (Throw e, w') => handler e w'
    end.

Definition emit (ev : Event) (w : World) : World :=
  {| net := net w; clock := clock w; trace := trace w ++ [ev] |}.

(** [await requester(config)]: one call through the adapter. *)
Definition call_requester (requester : AxiosInstance) (config : AxiosRequestConfig)
    (w : World) : Outcome * World :=
  let (o, n) := adapter requester config (net w) in
  (o, emit (Requested requester config o)
        {| net := n; clock := clock w; trace := trace w |}).

(** [await new Promise((resolve) => setTimeout(resolve, backoff))].  The
    event records the delay passed to [setTimeout], and the clock is moved
    on by that delay; what the timer makes of a delay below 1 or above
    2147483647 is left out (the calls in the class wait between 2000 and
    1024000 milliseconds). *)
Definition setTimeout (ms : Z) (w : World) : World :=
  emit (Waited ms) {| net := net w; clock := clock w + ms; trace := trace w |}.

Definition console_log (ev : Event) (w : World) : World := emit ev w.

(** ** Dates

    A time value is a whole number of milliseconds since the epoch, or
    [NaN] ([None]) for an invalid date.  [getMinutes] and [setMinutes]
    work on the local time of the host, whose offset from UTC may differ
    from one instant to another (daylight saving). *)
Definition TimeValue : Type := option Z.

Definition msPerMinute : Z := 60000.
Definition msPerHour : Z := 3600000.
Definition msPerDay : Z := 86400000.
Definition maxTimeValue : Z := 8640000000000000.

Definition TimeClip (t : Z) : TimeValue :=
  if Z.abs t <=? maxTimeValue then Some t else None.

Definition LocalTime (t : Z) : Z := t + LocalTZA t true.
Definition UTC (t : Z) : Z := t - LocalTZA t false.

Definition Day (t : Z) : Z := t / msPerDay.
Definition HourFromTime (t : Z) : Z := (t / msPerHour) mod 24.
Definition MinFromTime (t : Z) : Z := (t / msPerMinute) mod 60.
Definition SecFromTime (t : Z) : Z := (t / 1000) mod 60.
Definition msFromTime (t : Z) : Z := t mod 1000.

Definition MakeTime (hour min sec ms : Z) : Z :=
  hour * msPerHour + min * msPerMinute + sec * 1000 + ms.
Definition MakeDate (day time : Z) : Z := day * msPerDay + time.

(** [new Date(value)] for a number and for a string. *)
Definition Date_of_number (t : Z) : TimeValue := TimeClip t.
Definition Date_of_string (s : string) : TimeValue :=
  match Date_parse s with
  | Some t => TimeClip t
  | None => None
  end.

Definition getMinutes (d : TimeValue) : option Z :=
  match d with
  | Some t => Some (MinFromTime (LocalTime t))
  | None => None
  end.

Definition setMinutes (d : TimeValue) (min : option Z) : TimeValue :=
  match d, min with
  | Some t, Some m =>
      let lt := LocalTime t in
      TimeClip (UTC (MakeDate (Day lt)
                       (MakeTime (HourFromTime lt) m (SecFromTime lt) (msFromTime lt))))
  | _, _ => None
  end.

Definition getTime (d : TimeValue) : option Z := d.

(** Number addition and [<=] with [NaN]: a sum with [NaN] is [NaN], a
    comparison with [NaN] is false. *)
Definition number_add (a : option Z) (b : Z) : option Z :=
  match a with
  | Some x => Some (x + b)
  | None => None
  end.

Definition number_le (a b : option Z) : bool :=
  match a, b with
  | Some x, Some y => x <=? y
  | _, _ => false
  end.

Definition Date_now : M Z := fun w => (Return (clock w), w).

(** ** Token guard

    The margin [timeUntilExpiry] is a whole number of minutes, as the
    default and every call in the class have it. *)

Definition default_timeUntilExpiry : Z := 5.

Definition verifyAuthToken (authToken : CopyleaksAuthToken) (timeUntilExpiry : Z) : M unit :=
  bind Date_now (fun now =>
  let date := Date_of_number now in
  let date := setMinutes date (number_add (getMinutes date) timeUntilExpiry) in
  let expiresDate := Date_of_string (expires authToken) in
  if number_le (getTime expiresDate) (getTime date)
  then throw AuthExipredException
  else ret tt).

(** ** Request executor *)

Definition default_retries : Z := 10.
Definition default_backoff : Z := 2000.

Definition includes (l : list Z) (x : Z) : bool := existsb (Z.eqb x) l.

Definition code_is (c : option string) (s : string) : bool :=
  match c with
  | Some c' => String.eqb c' s
  | None => false
  end.

(** The condition of the second [if] in the [catch] block:
    [error.response && ([429, 500, 502].includes(error.response.status)
      || error.code === 'ETIMEDOUT')]. *)
Definition retry_condition (error : AxiosError) : bool :=
  match response error with
  | Some r => includes [429; 500; 502] (status r) || code_is (code error) "ETIMEDOUT"
  | None => false
  end.

Definition error_status (error : AxiosError) : option Z :=
  match response error with
  | Some r => Some (status r)
  | None => None
  end.

Equations? request (config : AxiosRequestConfig) (requester : AxiosInstance)
    (retries backoff : Z) (w : World) : Completion AxiosResponse * World
    by wf (Z.to_nat retries) lt :=
  request config requester retries backoff w with call_requester requester config w := {
    | (inl resp, w1) => (Return resp, w1);
    | (inr error, w1) with Z_lt_dec retries 1 := {
        | left _ =>
            (Throw (TransportError error),
             console_log (LogRequestError (error_status error) retries backoff) w1);
        | right _ with retry_condition error := {
            | true =>
                request config requester (retries - 1) (backoff * 2)
                  (setTimeout backoff
                     (console_log (LogBackoff config)
                        (console_log (LogRequestError (error_status error) retries backoff) w1)));
            | false =>
                (Throw (TransportError error),
                 console_log (LogRequestError (error_status error) retries backoff) w1) } } }.
Proof. lia. Qed.


(** ** Status classification helpers

    The three predicates of [./utils], which is not part of the sources.
    The two reserved status values are the host constants
    [UNDER_MAINTENANCE_STATUS] and [RATE_LIMIT_STATUS]. *)

(** Modelled from the spec: [isSuccessStatusCode] of [./utils] is missing;
    the spec has "status in the conventional OK range (200-299 inclusive)". *)
Definition isSuccessStatusCode (st : Z) : bool := (200 <=? st) && (st <=? 299).

(** Modelled from the spec: [isUnderMaintenanceResponse] of [./utils] is
    missing; the spec has "a specific reserved status value signaling
    planned unavailability". *)
Definition isUnderMaintenanceResponse (st : Z) : bool := st =? UNDER_MAINTENANCE_STATUS.

(** Modelled from the spec: [isRateLimitResponse] of [./utils] is missing;
    the spec has "a specific reserved status value" returned with a normal
    response. *)
Definition isRateLimitResponse (st : Z) : bool := st =? RATE_LIMIT_STATUS.

(** ** The client object and its public operations *)

Record Copyleaks : Type := {
  api : AxiosInstance;
  accountApi : AxiosInstance
}.

Definition constructor : Copyleaks :=
  {| api := {| baseURL := API_SERVER_URI;
               default_headers := [("Content-Type", "application/json");
                                   ("User-Agent", USER_AGENT)] |};
     accountApi := {| baseURL := IDENTITY_SERVER_URI;
                      default_headers := [("Content-Type", "application/json");
                                          ("User-Agent", USER_AGENT)] |} |}.

Notation "x <- m ;; k" := (bind m (fun x => k))
  (at level 61, m at next level, right associativity).
Notation "m ;; k" := (bind m (fun _ => k))
  (at level 61, right associativity).

Definition bearer (authToken : CopyleaksAuthToken) : Headers :=
  [("Authorization", "Bearer " ++ access_token authToken)].

Definition loginAsync (this : Copyleaks) (email key : string) : M (option Json) :=
  let payload := JObject [("email", JString email); ("key", JString key)] in
  resp <- request {| method := POST;
                     url := "/v3/account/login/api";
                     config_data := Some payload;
                     config_headers := [];
                     maxBodyLength := None |}
                  (accountApi this) default_retries default_backoff ;;
  if isSuccessStatusCode (status resp) then ret (Some (data resp))
  else if isUnderMaintenanceResponse (status resp) then throw UnderMaintenanceException
  else throw (CommandException resp).

Definition submitFileAsync (this : Copyleaks) (product : Product)
    (authToken : CopyleaksAuthToken) (scanId : string) (submission : Json) : M (option Json) :=
  verifyAuthToken authToken default_timeUntilExpiry ;;
  resp <- try_catch
            (request {| method := PUT;
                        url := "/v3/" ++ Product_to_string product ++ "/submit/file/" ++ scanId;
                        config_data := Some submission;
                        config_headers := bearer authToken;
                        maxBodyLength := Some Infinity |}
                     (api this) default_retries default_backoff)
            (fun error =>
               throw (Error ("Failed to submit file to Copyleaks API for scan with ID '"
                               ++ scanId ++ "'.") error)) ;;
  if isSuccessStatusCode (status resp) then ret None
  else if isUnderMaintenanceResponse (status resp) then throw UnderMaintenanceException
  else throw (CommandException resp).

Definition submitFileOcrAsync (this : Copyleaks) (product : Product)
    (authToken : CopyleaksAuthToken) (scanId : string) (submission : Json) : M (option Json) :=
  verifyAuthToken authToken default_timeUntilExpiry ;;
  resp <- request {| method := PUT;
                     url := "/v3/" ++ Product_to_string product ++ "/submit/ocr/" ++ scanId;
                     config_data := Some submission;
                     config_headers := bearer authToken;
                     maxBodyLength := Some Infinity |}
                  (api this) default_retries default_backoff ;;
  if isSuccessStatusCode (status resp) then ret None
  else if isUnderMaintenanceResponse (status resp) then throw UnderMaintenanceException
  else throw (CommandException resp).

Definition submitUrlAsync (this : Copyleaks) (product : Product)
    (authToken : CopyleaksAuthToken) (scanId : string) (submission : Json) : M (option Json) :=
  verifyAuthToken authToken default_timeUntilExpiry ;;
  resp <- request {| method := PUT;
                     url := "/v3/" ++ Product_to_string product ++ "/submit/url/" ++ scanId;
                     config_data := Some submission;
                     config_headers := bearer authToken;
                     maxBodyLength := Some Infinity |}
                  (api this) default_retries default_backoff ;;
  if isSuccessStatusCode (status resp) then ret None
  else if isUnderMaintenanceResponse (status resp) then throw UnderMaintenanceException
  else throw (CommandException resp).

Definition exportAsync (this : Copyleaks) (authToken : CopyleaksAuthToken)
    (scanId exportId : string) (model : Json) : M (option Json) :=
  verifyAuthToken authToken default_timeUntilExpiry ;;
  resp <- request {| method := POST;
                     url := "/v3/downloads/" ++ scanId ++ "/export/" ++ exportId;
                     config_data := Some model;
                     config_headers := bearer authToken;
                     maxBodyLength := Some Infinity |}
                  (api this) default_retries default_backoff ;;
  if isSuccessStatusCode (status resp) then ret None
  else if isUnderMaintenanceResponse (status resp) then throw UnderMaintenanceException
  else throw (CommandException resp).

Definition startAsync (this : Copyleaks) (product : Product)
    (authToken : CopyleaksAuthToken) (model : Json) : M (option Json) :=
  verifyAuthToken authToken default_timeUntilExpiry ;;
  resp <- request {| method := PATCH;
                     url := "/v3/" ++ Product_to_string product ++ "/start";
                     config_data := Some model;
                     config_headers := bearer authToken;
                     maxBodyLength := Some Infinity |}
                  (api this) default_retries default_backoff ;;
  if isSuccessStatusCode (status resp) then ret (Some (data resp))
  else if isUnderMaintenanceResponse (status resp) then throw UnderMaintenanceException
  else throw (CommandException resp).

Definition deleteAsync (this : Copyleaks) (product : Product)
    (authToken : CopyleaksAuthToken) (payloads : Json) : M (option Json) :=
  verifyAuthToken authToken default_timeUntilExpiry ;;
  resp <- request {| method := PATCH;
                     url := "/v3.1/" ++ Product_to_string product ++ "/delete";
                     config_data := Some payloads;
                     config_headers := bearer authToken;
                     maxBodyLength := Some Infinity |}
                  (api this) default_retries default_backoff ;;
  if isSuccessStatusCode (status resp) then ret None
  else if isUnderMaintenanceResponse (status resp) then throw UnderMaintenanceException
  else if isRateLimitResponse (status resp) then throw RateLimitException
  else throw (CommandException resp).

Definition resendWebhookAsync (this : Copyleaks) (product : Product)
    (authToken : CopyleaksAuthToken) (scanId : string) : M (option Json) :=
  verifyAuthToken authToken default_timeUntilExpiry ;;
  resp <- request {| method := POST;
                     url := "/v3/" ++ Product_to_string product ++ "/scans/" ++ scanId
                              ++ "/webhooks/resend";
                     config_data := Some JNull;
                     config_headers := bearer authToken;
                     maxBodyLength := None |}
                  (api this) default_retries default_backoff ;;
  if isSuccessStatusCode (status resp) then ret None
  else if isUnderMaintenanceResponse (status resp) then throw UnderMaintenanceException
  else throw (CommandException resp).

Definition getCreditsBalanceAsync (this : Copyleaks) (product : Product)
    (authToken : CopyleaksAuthToken) : M (option Json) :=
  verifyAuthToken authToken default_timeUntilExpiry ;;
  resp <- request {| method := GET;
                     url := "/v3/" ++ Product_to_string product ++ "/credits";
                     config_data := None;
                     config_headers := bearer authToken;
                     maxBodyLength := None |}
                  (api this) default_retries default_backoff ;;
  if isSuccessStatusCode (status resp) then ret (Some (data resp))
  else if isUnderMaintenanceResponse (status resp) then throw UnderMaintenanceException
  else if isRateLimitResponse (status resp) then throw RateLimitException
  else throw (CommandException resp).

Definition getUsagesHistoryCsvAsync (this : Copyleaks) (product : Product)
    (authToken : CopyleaksAuthToken) (startDate endDate : string) : M (option Json) :=
  verifyAuthToken authToken default_timeUntilExpiry ;;
  resp <- request {| method := GET;
                     url := "/v3/" ++ Product_to_string product ++ "/usages/history?start="
                              ++ startDate ++ "&end=" ++ endDate;
                     config_data := None;
                     config_headers := bearer authToken;
                     maxBodyLength := None |}
                  (api this) default_retries default_backoff ;;
  if isSuccessStatusCode (status resp) then ret (Some (data resp))
  else if isUnderMaintenanceResponse (status resp) then throw UnderMaintenanceException
  else if isRateLimitResponse (status resp) then throw RateLimitException
  else throw (CommandException resp).

Definition getReleaseNotesAsync (this : Copyleaks) : M (option Json) :=
  resp <- request {| method := GET;
                     url := "/v3/release-logs.json";
                     config_data := None;
                     config_headers := [];
                     maxBodyLength := None |}
                  (api this) default_retries default_backoff ;;
  if isSuccessStatusCode (status resp) then ret (Some (data resp))
  else if isUnderMaintenanceResponse (status resp) then throw UnderMaintenanceException
  else if isRateLimitResponse (status resp) then throw RateLimitException
  else throw (CommandException resp).

Definition getSupportedFileTypesAsync (this : Copyleaks) : M (option Json) :=
  resp <- request {| method := GET;
                     url := "/v3/miscellaneous/supported-file-types";
                     config_data := None;
                     config_headers := [];
                     maxBodyLength := None |}
                  (api this) default_retries default_backoff ;;
  if isSuccessStatusCode (status resp) then ret (Some (data resp))
  else if isUnderMaintenanceResponse (status resp) then throw UnderMaintenanceException
  else if isRateLimitResponse (status resp) then throw RateLimitException
  else throw (CommandException resp).

Definition getOCRSupportedLanguagesAsync (this : Copyleaks) : M (option Json) :=
  resp <- request {| method := GET;
                     url := "/v3/miscellaneous/ocr-languages-list";
                     config_data := None;
                     config_headers := [];
                     maxBodyLength := None |}
                  (api this) default_retries default_backoff ;;
  if isSuccessStatusCode (status resp) then ret (Some (data resp))
  else if isUnderMaintenanceResponse (status resp) then throw UnderMaintenanceException
  else if isRateLimitResponse (status resp) then throw RateLimitException
  else throw (CommandException resp).


(** ** The public operations as one family *)

Inductive Operation : Type :=
| LoginAsync (email key : string)
| SubmitFileAsync (product : Product) (authToken : CopyleaksAuthToken)
    (scanId : string) (submission : Json)
| SubmitFileOcrAsync (product : Product) (authToken : CopyleaksAuthToken)
    (scanId : string) (submission : Json)
| SubmitUrlAsync (product : Product) (authToken : CopyleaksAuthToken)
    (scanId : string) (submission : Json)
| ExportAsync (authToken : CopyleaksAuthToken) (scanId exportId : string) (model : Json)
| StartAsync (product : Product) (authToken : CopyleaksAuthToken) (model : Json)
| DeleteAsync (product : Product) (authToken : CopyleaksAuthToken) (payloads : Json)
| ResendWebhookAsync (product : Product) (authToken : CopyleaksAuthToken) (scanId : string)
| GetCreditsBalanceAsync (product : Product) (authToken : CopyleaksAuthToken)
| GetUsagesHistoryCsvAsync (product : Product) (authToken : CopyleaksAuthToken)
    (startDate endDate : string)
| GetReleaseNotesAsync
| GetSupportedFileTypesAsync
| GetOCRSupportedLanguagesAsync.

Definition perform (this : Copyleaks) (op : Operation) : M (option Json) :=
  match op with
  | LoginAsync email key => loginAsync this email key
  | SubmitFileAsync product authToken scanId submission =>
      submitFileAsync this product authToken scanId submission
  | SubmitFileOcrAsync product authToken scanId submission =>
      submitFileOcrAsync this product authToken scanId submission
  | SubmitUrlAsync product authToken scanId submission =>
      submitUrlAsync this product authToken scanId submission
  | ExportAsync authToken scanId exportId model =>
      exportAsync this authToken scanId exportId model
  | StartAsync product authToken model => startAsync this product authToken model
  | DeleteAsync product authToken payloads => deleteAsync this product authToken payloads
  | ResendWebhookAsync product authToken scanId =>
      resendWebhookAsync this product authToken scanId
  | GetCreditsBalanceAsync product authToken => getCreditsBalanceAsync this product authToken
  | GetUsagesHistoryCsvAsync product authToken startDate endDate =>
      getUsagesHistoryCsvAsync this product authToken startDate endDate
  | GetReleaseNotesAsync => getReleaseNotesAsync this
  | GetSupportedFileTypesAsync => getSupportedFileTypesAsync this
  | GetOCRSupportedLanguagesAsync => getOCRSupportedLanguagesAsync this
  end.

(** The credential an operation is called with, if it takes one. *)
Definition credential (op : Operation) : option CopyleaksAuthToken :=
  match op with
  | SubmitFileAsync _ t _ _ | SubmitFileOcrAsync _ t _ _ | SubmitUrlAsync _ t _ _
  | ExportAsync t _ _ _ | StartAsync _ t _ | DeleteAsync _ t _
  | ResendWebhookAsync _ t _ | GetCreditsBalanceAsync _ t
  | GetUsagesHistoryCsvAsync _ t _ _ => Some t
  | LoginAsync _ _ | GetReleaseNotesAsync | GetSupportedFileTypesAsync
  | GetOCRSupportedLanguagesAsync => None
  end.

(** The axios instance an operation sends through. *)
Definition requester_of (this : Copyleaks) (op : Operation) : AxiosInstance :=
  match op with
  | LoginAsync _ _ => accountApi this
  | _ => api this
  end.

(** The request descriptor an operation builds. *)
Definition descriptor (op : Operation) : AxiosRequestConfig :=
  match op with
  | LoginAsync email key =>
      {| method := POST; url := "/v3/account/login/api";
         config_data := Some (JObject [("email", JString email); ("key", JString key)]);
         config_headers := []; maxBodyLength := None |}
  | SubmitFileAsync product t scanId submission =>
      {| method := PUT;
         url := "/v3/" ++ Product_to_string product ++ "/submit/file/" ++ scanId;
         config_data := Some submission; config_headers := bearer t;
         maxBodyLength := Some Infinity |}
  | SubmitFileOcrAsync product t scanId submission =>
      {| method := PUT;
         url := "/v3/" ++ Product_to_string product ++ "/submit/ocr/" ++ scanId;
         config_data := Some submission; config_headers := bearer t;
         maxBodyLength := Some Infinity |}
  | SubmitUrlAsync product t scanId submission =>
      {| method := PUT;
         url := "/v3/" ++ Product_to_string product ++ "/submit/url/" ++ scanId;
         config_data := Some submission; config_headers := bearer t;
         maxBodyLength := Some Infinity |}
  | ExportAsync t scanId exportId model =>
      {| method := POST; url := "/v3/downloads/" ++ scanId ++ "/export/" ++ exportId;
         config_data := Some model; config_headers := bearer t;
         maxBodyLength := Some Infinity |}
  | StartAsync product t model =>
      {| method := PATCH; url := "/v3/" ++ Product_to_string product ++ "/start";
         config_data := Some model; config_headers := bearer t;
         maxBodyLength := Some Infinity |}
  | DeleteAsync product t payloads =>
      {| method := PATCH; url := "/v3.1/" ++ Product_to_string product ++ "/delete";
         config_data := Some payloads; config_headers := bearer t;
         maxBodyLength := Some Infinity |}
  | ResendWebhookAsync product t scanId =>
      {| method := POST;
         url := "/v3/" ++ Product_to_string product ++ "/scans/" ++ scanId
                  ++ "/webhooks/resend";
         config_data := Some JNull; config_headers := bearer t; maxBodyLength := None |}
  | GetCreditsBalanceAsync product t =>
      {| method := GET; url := "/v3/" ++ Product_to_string product ++ "/credits";
         config_data := None; config_headers := bearer t; maxBodyLength := None |}
  | GetUsagesHistoryCsvAsync product t startDate endDate =>
      {| method := GET;
         url := "/v3/" ++ Product_to_string product ++ "/usages/history?start="
                  ++ startDate ++ "&end=" ++ endDate;
         config_data := None; config_headers := bearer t; maxBodyLength := None |}
  | GetReleaseNotesAsync =>
      {| method := GET; url := "/v3/release-logs.json";
         config_data := None; config_headers := []; maxBodyLength := None |}
  | GetSupportedFileTypesAsync =>
      {| method := GET; url := "/v3/miscellaneous/supported-file-types";
         config_data := None; config_headers := []; maxBodyLength := None |}
  | GetOCRSupportedLanguagesAsync =>
      {| method := GET; url := "/v3/miscellaneous/ocr-languages-list";
         config_data := None; config_headers := []; maxBodyLength := None |}
  end.

(** Operations whose status chain has the [isRateLimitResponse] branch. *)
Definition checks_rate_limit (op : Operation) : bool :=
  match op with
  | DeleteAsync _ _ _ | GetCreditsBalanceAsync _ _ | GetUsagesHistoryCsvAsync _ _ _ _
  | GetReleaseNotesAsync | GetSupportedFileTypesAsync | GetOCRSupportedLanguagesAsync => true
  | _ => false
  end.

(** What an operation returns on a success status: [response.data], or
    nothing ([return;]). *)
Definition success_value (op : Operation) (resp : AxiosResponse) : option Json :=
  match op with
  | LoginAsync _ _ | StartAsync _ _ _ | GetCreditsBalanceAsync _ _
  | GetUsagesHistoryCsvAsync _ _ _ _ | GetReleaseNotesAsync | GetSupportedFileTypesAsync
  | GetOCRSupportedLanguagesAsync => Some (data resp)
  | _ => None
  end.

(** What the caller sees when the executor throws [e] inside an operation:
    [submitFileAsync] is the one operation with a [catch] around it. *)
Definition surfaced (op : Operation) (e : Exception) : Exception :=
  match op with
  | SubmitFileAsync _ _ scanId _ =>
      Error ("Failed to submit file to Copyleaks API for scan with ID '" ++ scanId ++ "'.") e
  | _ => e
  end.

(** ** Reading a trace *)

Definition new_events (w w' : World) : list Event :=
  skipn (List.length (trace w)) (trace w').

Fixpoint attempts (evs : list Event) : list Outcome :=
  match evs with
  | [] => []
  | Requested _ _ o :: rest => o :: attempts rest
  | _ :: rest => attempts rest
  end.

Fixpoint descriptors_sent (evs : list Event) : list (AxiosInstance * AxiosRequestConfig) :=
  match evs with
  | [] => []
  | Requested r c _ :: rest => (r, c) :: descriptors_sent rest
  | _ :: rest => descriptors_sent rest
  end.

Fixpoint delays (evs : list Event) : list Z :=
  match evs with
  | [] => []
  | Waited ms :: rest => ms :: delays rest
  | _ :: rest => delays rest
  end.

Fixpoint logged_retries (evs : list Event) : list Z :=
  match evs with
  | [] => []
  | LogRequestError _ r _ :: rest => r :: logged_retries rest
  | _ :: rest => logged_retries rest
  end.

(** [initialBackoffMs * 2^0, ..., initialBackoffMs * 2^(n-1)]. *)
Definition doubling (backoff : Z) (n : nat) : list Z :=
  map (fun k => backoff * 2 ^ Z.of_nat k) (seq 0 n).

(** [N, N-1, ..., 0]. *)
Definition countdown (N : Z) : list Z :=
  map (fun k => N - Z.of_nat k) (seq 0 (S (Z.to_nat N))).

(** The waits seen before each attempt: one entry per [Requested] event,
    listing the [Waited] events since the previous attempt. *)
Fixpoint delays_before (pending : list Z) (evs : list Event) : list (list Z) :=
  match evs with
  | [] => []
  | Requested _ _ _ :: rest => pending :: delays_before [] rest
  | Waited ms :: rest => delays_before (pending ++ [ms]) rest
  | _ :: rest => delays_before pending rest
  end.

(** The token check an operation starts with. *)
Definition guard (op : Operation) : M unit :=
  match credential op with
  | Some authToken => verifyAuthToken authToken default_timeUntilExpiry
  | None => ret tt
  end.

(** The event sequences one call of [request] can leave behind, with the
    completion they end in. *)
Inductive Attempts (config : AxiosRequestConfig) (requester : AxiosInstance)
  : Z -> Z -> list Event -> Completion AxiosResponse -> Prop :=
| Attempts_response retries backoff n resp :
    fst (adapter requester config n) = inl resp ->
    Attempts config requester retries backoff
      [Requested requester config (inl resp)] (Return resp)
| Attempts_exhausted retries backoff n error :
    fst (adapter requester config n) = inr error ->
    retries < 1 ->
    Attempts config requester retries backoff
      [Requested requester config (inr error);
       LogRequestError (error_status error) retries backoff]
      (Throw (TransportError error))
| Attempts_rejected retries backoff n error :
    fst (adapter requester config n) = inr error ->
    1 <= retries ->
    retry_condition error = false ->
    Attempts config requester retries backoff
      [Requested requester config (inr error);
       LogRequestError (error_status error) retries backoff]
      (Throw (TransportError error))
| Attempts_retry retries backoff n error evs r :
    fst (adapter requester config n) = inr error ->
    1 <= retries ->
    retry_condition error = true ->
    Attempts config requester (retries - 1) (backoff * 2) evs r ->
    Attempts config requester retries backoff
      (Requested requester config (inr error)
         :: LogRequestError (error_status error) retries backoff
         :: LogBackoff config
         :: Waited backoff
         :: evs) r.

(** The transport rejects every call with an error that meets the retry
    condition of the [catch] block. *)
Definition always_retryable (requester : AxiosInstance) (config : AxiosRequestConfig) : Prop :=
  forall n, exists error,
    fst (adapter requester config n) = inr error /\ retry_condition error = true.



(** The retry state each error log line reports: [{ retries, backoff }]. *)
Fixpoint logged_state (evs : list Event) : list (Z * Z) :=
  match evs with
  | [] => []
  | LogRequestError _ r b :: rest => (r, b) :: logged_state rest
  | _ :: rest => logged_state rest
  end.

(** The sum of the delays passed to [setTimeout], in milliseconds. *)
Definition total_delay (evs : list Event) : Z := fold_right Z.add 0 (delays evs).

(** [k] calls in a row from net state [n], each rejected with an error that
    meets the retry condition: the net state they leave behind, if that is
    how the transport behaves. *)
Fixpoint rejected_times (requester : AxiosInstance) (config : AxiosRequestConfig)
    (k : nat) (n : Net) : option Net :=
  match k with
  | O => Some n
  | S k' =>
      match adapter requester config n with
      | (inr error, n') =>
          if retry_condition error then rejected_times requester config k' n' else None
      | (inl _, _) => None
      end
  end.

End Client.

(** ** Sample hosts *)

Definition sample_Date_parse (s : string) : option Z :=
  if String.eqb s "2026-11-02T12:00:00.000Z" then Some 1793620800000 else None.

(** A transport that answers successive calls with the outcomes of a
    script and with [fallback] once the script is used up. *)
Definition scripted_adapter (fallback : Outcome) (_ : AxiosInstance)
    (_ : AxiosRequestConfig) (script : list Outcome) : Outcome * list Outcome :=
  match script with
  | [] => (fallback, [])
  | o :: rest => (o, rest)
  end.

Definition scripted_host (fallback : Outcome) : Host :=
  {| Net := list Outcome;
     adapter := scripted_adapter fallback;
     Date_parse := sample_Date_parse;
     LocalTZA := fun _ _ => 7200000;
     UNDER_MAINTENANCE_STATUS := 512;
     RATE_LIMIT_STATUS := 513;
     API_SERVER_URI := "https://api.copyleaks.com";
     IDENTITY_SERVER_URI := "https://id.copyleaks.com";
     USER_AGENT := "node-sdk/3.0" |}.

Definition sample_response (st : Z) : AxiosResponse :=
  {| status := st; statusText := ""; headers := []; data := JString "body" |}.

Definition status_error (st : Z) : AxiosError :=
  {| response := Some (sample_response st); code := Some "ERR_BAD_RESPONSE";
     message := "Request failed" |}.

Definition timeout_error : AxiosError :=
  {| response := None; code := Some "ETIMEDOUT"; message := "connect ETIMEDOUT" |}.

(** A transport that never answers: the [k]-th call is rejected with
    status 429, 500 or 502 in turn. *)
Definition failing_adapter (_ : AxiosInstance) (_ : AxiosRequestConfig) (k : nat)
  : Outcome * nat :=
  (inr (status_error (nth (k mod 3) [429; 500; 502] 500)), S k).

Definition failing_host : Host :=
  {| Net := nat;
     adapter := failing_adapter;
     Date_parse := sample_Date_parse;
     LocalTZA := fun _ _ => 0;
     UNDER_MAINTENANCE_STATUS := 512;
     RATE_LIMIT_STATUS := 513;
     API_SERVER_URI := "https://api.copyleaks.com";
     IDENTITY_SERVER_URI := "https://id.copyleaks.com";
     USER_AGENT := "node-sdk/3.0" |}.

Definition sample_config : AxiosRequestConfig :=
  {| method := GET; url := "/v3/education/credits"; config_data := None;
     config_headers := [("Authorization", "Bearer abc")]; maxBodyLength := None |}.

Definition sample_token : CopyleaksAuthToken :=
  {| access_token := "abc"; expires := "2026-11-02T12:00:00.000Z" |}.

Definition malformed_token : CopyleaksAuthToken :=
  {| access_token := "abc"; expires := "soon" |}.

Definition start_world {host : Host} (n : Net) (now : Z) : World :=
  {| net := n; clock := now; trace := [] |}.

(** Hosts whose transport rejects every call: with a connection timeout
    (no response), and with a 404 response. *)
Definition timeout_host : Host := scripted_host (inr timeout_error).
Definition not_found_host : Host := scripted_host (inr (status_error 404)).

(** A host in the zone Europe/Copenhagen around the end of daylight
    saving in 2026: at 2026-10-25T01:00:00Z, 03:00 local time, clocks go
    back from UTC+2 to UTC+1.  Local times before 03:00, the repeated
    hour included, are read with the offset from before the change. *)
Definition clocks_go_back : Z := 1792890000000.

Definition copenhagen_LocalTZA (t : Z) (isUTC : bool) : Z :=
  if isUTC
  then (if t <? clocks_go_back then 7200000 else 3600000)
  else (if t <? clocks_go_back + 7200000 then 7200000 else 3600000).

Definition copenhagen_Date_parse (s : string) : option Z :=
  if String.eqb s "2026-10-25T01:00:00.000Z" then Some clocks_go_back
  else if String.eqb s "2026-10-25T01:30:00.000Z" then Some (clocks_go_back + 30 * 60000)
  else None.

Definition copenhagen_host : Host :=
  {| Net := list Outcome;
     adapter := scripted_adapter (inr timeout_error);
     Date_parse := copenhagen_Date_parse;
     LocalTZA := copenhagen_LocalTZA;
     UNDER_MAINTENANCE_STATUS := 512;
     RATE_LIMIT_STATUS := 513;
     API_SERVER_URI := "https://api.copyleaks.com";
     IDENTITY_SERVER_URI := "https://id.copyleaks.com";
     USER_AGENT := "node-sdk/3.0" |}.

(** A credential that expires when the clocks go back, and one that
    expires half an hour later. *)
Definition token_expiring_at_change : CopyleaksAuthToken :=
  {| access_token := "abc"; expires := "2026-10-25T01:00:00.000Z" |}.
Definition token_expiring_after_change : CopyleaksAuthToken :=
  {| access_token := "abc"; expires := "2026-10-25T01:30:00.000Z" |}.

(** The instant [sample_token] expires, and three minutes and one hour
    before it. *)
Definition sample_expiry : Z := 1793620800000.
Definition one_hour_before : Z := sample_expiry - 60 * 60000.

(** * Properties *)

Section Properties.

Context {host : Host}.

(** ** The executor, one attempt at a time *)

Lemma request_step config requester retries backoff w :
  request config requester retries backoff w =
  match call_requester requester config w with
  | (inl resp, w1) => (Return resp, w1)
  | (inr error, w1) =>
      let w2 := console_log (LogRequestError (error_status error) retries backoff) w1 in
      if retries <? 1 then (Throw (TransportError error), w2)
      else if retry_condition error
           then request config requester (retries - 1) (backoff * 2)
                  (setTimeout backoff (console_log (LogBackoff config) w2))
           else (Throw (TransportError error), w2)
  end.
Proof.
  simp request.
  destruct (call_requester requester config w) as [[resp | error] w1]; simpl.
  - reflexivity.
  - destruct (Z_lt_dec retries 1) as [Hlt | Hge]; simpl.
    + apply Z.ltb_lt in Hlt. rewrite Hlt. reflexivity.
    + assert (Hb : (retries <? 1) = false) by (apply Z.ltb_ge; lia). rewrite Hb.
      destruct (retry_condition error); reflexivity.
Qed.

Lemma call_requester_trace requester config w :
  trace (snd (call_requester requester config w)) =
  (trace w ++ [Requested requester config (fst (call_requester requester config w))])%list.
Proof.
  unfold call_requester. destruct (adapter requester config (net w)); reflexivity.
Qed.

Lemma call_requester_outcome requester config w :
  fst (call_requester requester config w) = fst (adapter requester config (net w)).
Proof.
  unfold call_requester. destruct (adapter requester config (net w)); reflexivity.
Qed.

Lemma request_attempts config requester retries backoff w :
  exists evs,
    trace (snd (request config requester retries backoff w)) = (trace w ++ evs)%list
    /\ Attempts config requester retries backoff evs
         (fst (request config requester retries backoff w)).
Proof.
  remember (Z.to_nat retries) as fuel eqn:Hfuel.
  revert retries backoff w Hfuel.
  induction fuel as [fuel IH] using lt_wf_ind; intros retries backoff w Hfuel.
  rewrite request_step.
  pose proof (call_requester_trace requester config w) as Htr.
  pose proof (call_requester_outcome requester config w) as Hout.
  destruct (call_requester requester config w) as [[resp | error] w1]; simpl in *.
  - eexists. split; [exact Htr |]. eapply Attempts_response. symmetry; exact Hout.
  - destruct (retries <? 1) eqn:Hlt; simpl.
    + apply Z.ltb_lt in Hlt. eexists. split.
      * rewrite Htr, <- app_assoc. reflexivity.
      * eapply Attempts_exhausted; [symmetry; exact Hout | exact Hlt].
    + apply Z.ltb_ge in Hlt.
      destruct (retry_condition error) eqn:Hretry; simpl.
      * destruct (IH (Z.to_nat (retries - 1)) ltac:(lia) (retries - 1) (backoff * 2)
                    (setTimeout backoff
                       (console_log (LogBackoff config)
                          (console_log (LogRequestError (error_status error) retries backoff)
                             w1))) eq_refl) as [evs [Hevs Hatt]].
        eexists. split.
        -- rewrite Hevs. simpl. rewrite Htr. rewrite <- !app_assoc. simpl. reflexivity.
        -- eapply Attempts_retry; eauto.
      * eexists. split.
        -- rewrite Htr, <- app_assoc. reflexivity.
        -- eapply Attempts_rejected; eauto.
Qed.

Lemma new_events_app (w w' : World) evs :
  trace w' = (trace w ++ evs)%list -> new_events w w' = evs.
Proof.
  intros H. unfold new_events. rewrite H, skipn_app, skipn_all, Nat.sub_diag.
  reflexivity.
Qed.

Lemma request_new_events config requester retries backoff w :
  Attempts config requester retries backoff
    (new_events w (snd (request config requester retries backoff w)))
    (fst (request config requester retries backoff w)).
Proof.
  destruct (request_attempts config requester retries backoff w) as [evs [Htr Hatt]].
  rewrite (new_events_app _ _ _ Htr). exact Hatt.
Qed.

Lemma countdown_step N :
  1 <= N -> countdown N = N :: countdown (N - 1).
Proof.
  intros HN. unfold countdown.
  replace (Z.to_nat N) with (S (Z.to_nat (N - 1))) by lia.
  remember (S (Z.to_nat (N - 1))) as n.
  simpl. f_equal; [lia |].
  rewrite <- seq_shift, map_map.
  apply map_ext. intros k. lia.
Qed.

Lemma doubling_step backoff n :
  doubling backoff (S n) = backoff :: doubling (backoff * 2) n.
Proof.
  unfold doubling. simpl. f_equal; [lia |].
  rewrite <- seq_shift, map_map.
  apply map_ext. intros k.
  rewrite Nat2Z.inj_succ, Z.pow_succ_r by lia. lia.
Qed.

(** What every execution looks like, whatever the transport does. *)
Lemma Attempts_shape config requester retries backoff evs r :
  Attempts config requester retries backoff evs r ->
  delays evs = doubling backoff (List.length (delays evs))
  /\ delays_before [] evs
     = [] :: map (fun d => [d]) (doubling backoff (List.length (delays evs)))
  /\ List.length (attempts evs) = S (List.length (delays evs))
  /\ (Z.of_nat (List.length (delays evs)) <= Z.max 0 retries)
  /\ Forall (fun d => d = (requester, config)) (descriptors_sent evs).
Proof.
  induction 1 as [retries backoff n resp Hout
                 | retries backoff n error Hout Hlt
                 | retries backoff n error Hout Hge Hcond
                 | retries backoff n error evs r Hout Hge Hcond Hrest IH].
  - simpl. repeat split; [lia | repeat constructor].
  - simpl. repeat split; [lia | repeat constructor].
  - simpl. repeat split; [lia | repeat constructor].
  - destruct IH as (Hall & Hdel & Hlen & Hbound & Hsame).
    cbn [delays delays_before attempts descriptors_sent List.length app].
    rewrite doubling_step.
    destruct evs as [| ev evs'].
    + inversion Hrest.
    + assert (Hhead : exists o, ev = Requested requester config o)
        by (inversion Hrest; eexists; reflexivity).
      destruct Hhead as [o ->]. simpl in *.
      injection Hdel as Hdel.
      repeat split.
      * rewrite <- Hall. reflexivity.
      * rewrite Hdel. reflexivity.
      * lia.
      * lia.
      * constructor; [reflexivity | exact Hsame].
Qed.

(** What an execution looks like when every call is rejected with an
    error that meets the retry condition. *)
Lemma Attempts_exhaust config requester N backoff evs r :
  Attempts config requester N backoff evs r ->
  always_retryable requester config ->
  0 <= N ->
  Z.of_nat (List.length (attempts evs)) = N + 1
  /\ logged_retries evs = countdown N
  /\ exists error, nth_error (attempts evs) (Z.to_nat N) = Some (inr error)
                   /\ r = Throw (TransportError error).
Proof.
  intros Hatt Hfail.
  induction Hatt as [retries backoff n resp Hout
                    | retries backoff n error Hout Hlt
                    | retries backoff n error Hout Hge Hcond
                    | retries backoff n error evs r Hout Hge Hcond Hrest IH]; intros HN.
  - destruct (Hfail n) as [error [Herr _]]. congruence.
  - assert (retries = 0) by lia. subst retries. simpl.
    repeat split. exists error. split; reflexivity.
  - destruct (Hfail n) as [error' [Herr Hcond']]. congruence.
  - assert (Hpred : 0 <= retries - 1) by lia.
    destruct (IH Hpred) as (Hlen & Hlog & error' & Hnth & Hr).
    cbn [attempts logged_retries List.length]. repeat split.
    + lia.
    + rewrite Hlog. symmetry. apply countdown_step. exact Hge.
    + exists error'. split; [| exact Hr].
      replace (Z.to_nat retries) with (S (Z.to_nat (retries - 1))) by lia.
      exact Hnth.
Qed.


(** ** Claims about the executor *)


(** C9: every request that one call of [request] sends, the first attempt
    and every retry, goes to the same requester with the descriptor the
    call was given. *)
Theorem descriptor_replayed config requester retries backoff w :
  Forall (fun d => d = (requester, config))
    (descriptors_sent (new_events w (snd (request config requester retries backoff w)))).
Proof.
  pose proof (request_new_events config requester retries backoff w) as Hatt.
  apply (Attempts_shape _ _ _ _ _ _ Hatt).
Qed.

(** C6: when the transport answers the call with a response, whatever its
    status, [request] returns that response after this one attempt: the
    only event is the request itself, so nothing is retried, logged or
    waited for, and the clock is where it was. *)
Theorem response_returned_without_retry config requester retries backoff w resp :
  fst (adapter requester config (net w)) = inl resp ->
  let run := request config requester retries backoff w in
  fst run = Return resp
  /\ new_events w (snd run) = [Requested requester config (inl resp)]
  /\ delays (new_events w (snd run)) = []
  /\ clock (snd run) = clock w.
Proof.
  intros Hout run. subst run.
  rewrite request_step.
  pose proof (call_requester_trace requester config w) as Htr.
  pose proof (call_requester_outcome requester config w) as Hfst.
  assert (Hclock : clock (snd (call_requester requester config w)) = clock w).
  { unfold call_requester. destruct (adapter requester config (net w)); reflexivity. }
  destruct (call_requester requester config w) as [o w1]. simpl in *.
  rewrite Hout in Hfst. subst o. simpl.
  rewrite (new_events_app _ _ _ Htr). simpl. auto.
Qed.

(** The retry condition of the [catch] block, spelled out: the error must
    carry a response, and then either the status is 429, 500 or 502 or the
    error code is ETIMEDOUT. *)
Lemma retry_condition_iff error :
  retry_condition error = true <->
  exists r, response error = Some r
            /\ (status r = 429 \/ status r = 500 \/ status r = 502
                \/ code error = Some "ETIMEDOUT").
Proof.
  unfold retry_condition, includes, code_is. split.
  - destruct (response error) as [r |]; [| discriminate].
    intros H. exists r. split; [reflexivity |].
    simpl in H. rewrite !orb_true_iff, !Z.eqb_eq in H.
    destruct H as [[H | [H | [H | H]]] | H]; auto; try discriminate.
    destruct (code error) as [c |]; [| discriminate].
    apply String.eqb_eq in H. subst c. auto.
  - intros [r [-> H]]. simpl. rewrite !orb_true_iff, !Z.eqb_eq.
    destruct H as [H | [H | [H | H]]]; auto.
    right. rewrite H. apply String.eqb_refl.
Qed.

(** An error that fails the retry condition is thrown on the attempt that
    raised it, whatever budget is left: one request, one log line, no wait. *)
Lemma rejected_thrown_at_once config requester retries backoff w error :
  fst (adapter requester config (net w)) = inr error ->
  retry_condition error = false ->
  let run := request config requester retries backoff w in
  fst run = Throw (TransportError error)
  /\ new_events w (snd run)
     = [Requested requester config (inr error);
        LogRequestError (error_status error) retries backoff].
Proof.
  intros Hout Hcond run. subst run.
  rewrite request_step.
  pose proof (call_requester_trace requester config w) as Htr.
  pose proof (call_requester_outcome requester config w) as Hfst.
  destruct (call_requester requester config w) as [o w1]. simpl in *.
  rewrite Hout in Hfst. subst o. rewrite Hcond.
  destruct (retries <? 1); simpl; (split; [reflexivity |]);
    apply new_events_app; simpl; rewrite Htr, <- app_assoc; reflexivity.
Qed.

(** So is every error without a response, a connection timeout included. *)
Lemma no_response_not_retried config requester retries backoff w error :
  fst (adapter requester config (net w)) = inr error ->
  response error = None ->
  let run := request config requester retries backoff w in
  fst run = Throw (TransportError error)
  /\ new_events w (snd run)
     = [Requested requester config (inr error); LogRequestError None retries backoff].
Proof.
  intros Hout Hresp.
  assert (Hcond : retry_condition error = false)
    by (unfold retry_condition; rewrite Hresp; reflexivity).
  assert (Hst : error_status error = None)
    by (unfold error_status; rewrite Hresp; reflexivity).
  rewrite <- Hst.
  exact (rejected_thrown_at_once config requester retries backoff w error Hout Hcond).
Qed.

(** When every call is rejected with an error that meets the retry
    condition, all [N] waits happen: [backoff * 2^(k-1)] for k = 1..N. *)
Lemma all_delays_when_always_rejected config requester N backoff w :
  0 <= N ->
  always_retryable requester config ->
  delays (new_events w (snd (request config requester N backoff w)))
    = doubling backoff (Z.to_nat N).
Proof.
  intros HN Hfail.
  pose proof (request_new_events config requester N backoff w) as Hatt.
  destruct (Attempts_exhaust _ _ _ _ _ _ Hatt Hfail HN) as (Hlen & _).
  destruct (Attempts_shape _ _ _ _ _ _ Hatt) as (Hdel & _ & Hlen' & _).
  rewrite Hdel. f_equal. lia.
Qed.

(** ** The token guard *)







(** C10: when the [.expires] field of the credential does not give a valid
    date, [verifyAuthToken] returns normally, whatever the margin and
    whatever the time. *)
Theorem verifyAuthToken_malformed_expiry authToken m w :
  Date_of_string (expires authToken) = None ->
  verifyAuthToken authToken m w = (Return tt, w).
Proof.
  intros He.
  unfold verifyAuthToken, bind, Date_now, getTime. rewrite He. reflexivity.
Qed.

(** ** The public operations *)

(** Every operation is the same pipeline: the token check (where the
    operation takes a credential), one call of [request] with the default
    budget, then the status chain. *)
Lemma perform_pipeline this op w :
  perform this op w =
  match guard op w with
  | (Throw e, w0) => (Throw e, w0)
  | (Return _, w0) =>
      match request (descriptor op) (requester_of this op)
              default_retries default_backoff w0 with
      | (Return resp, w1) =>
          (if isSuccessStatusCode (status resp) then Return (success_value op resp)
           else if isUnderMaintenanceResponse (status resp)
                then Throw UnderMaintenanceException
           else if checks_rate_limit op && isRateLimitResponse (status resp)
                then Throw RateLimitException
           else Throw (CommandException resp), w1)
      | (Throw e, w1) => (Throw (surfaced op e), w1)
      end
  end.
Proof.
  destruct op; simpl;
    unfold loginAsync, submitFileAsync, submitFileOcrAsync, submitUrlAsync, exportAsync,
      startAsync, deleteAsync, resendWebhookAsync, getCreditsBalanceAsync,
      getUsagesHistoryCsvAsync, getReleaseNotesAsync, getSupportedFileTypesAsync,
      getOCRSupportedLanguagesAsync, guard, bind, try_catch, ret, throw; simpl;
    repeat match goal with
           | |- context [verifyAuthToken ?t ?m ?w] =>
               destruct (verifyAuthToken t m w) as [[[] | ?] ?]
           | |- context [request ?c ?r ?n ?b ?w] =>
               destruct (request c r n b w) as [[? | ?] ?]
           | |- context [isSuccessStatusCode ?x] => destruct (isSuccessStatusCode x)
           | |- context [isUnderMaintenanceResponse ?x] =>
               destruct (isUnderMaintenanceResponse x)
           | |- context [isRateLimitResponse ?x] => destruct (isRateLimitResponse x)
           end; reflexivity.
Qed.

(** In an operation without the rate-limit branch, a response that is
    neither a success nor the maintenance status throws [CommandException],
    the rate-limit status included. *)
Lemma unchecked_rate_limit_status this op w w1 resp :
  checks_rate_limit op = false ->
  guard op w = (Return tt, w) ->
  request (descriptor op) (requester_of this op) default_retries default_backoff w
    = (Return resp, w1) ->
  isSuccessStatusCode (status resp) = false ->
  isUnderMaintenanceResponse (status resp) = false ->
  perform this op w = (Throw (CommandException resp), w1).
Proof.
  intros Hunchecked Hguard Hreq Hsuccess Hmaintenance.
  rewrite perform_pipeline, Hguard, Hreq, Hsuccess, Hmaintenance, Hunchecked.
  reflexivity.
Qed.

Lemma Attempts_throw config requester retries backoff evs e :
  Attempts config requester retries backoff evs (Throw e) ->
  exists error earlier,
    e = TransportError error /\ attempts evs = (earlier ++ [inr error])%list.
Proof.
  remember (Throw e) as r eqn:Hr.
  induction 1 as [retries backoff n resp Hout
                 | retries backoff n error Hout Hlt
                 | retries backoff n error Hout Hge Hcond
                 | retries backoff n error evs r Hout Hge Hcond Hrest IH].
  - discriminate.
  - injection Hr as <-. exists error, []. split; reflexivity.
  - injection Hr as <-. exists error, []. split; reflexivity.
  - destruct (IH Hr) as (error' & earlier & He & Hatt).
    exists error', (inr error :: earlier). split; [exact He |].
    cbn [attempts]. rewrite Hatt. reflexivity.
Qed.

(** C5, as the code has it: once the token check has passed and the
    executor has returned a response, an operation looks at the status in
    this order: 200 to 299 is success; else the maintenance status throws
    [UnderMaintenanceException]; else the rate-limit status throws
    [RateLimitException] in the six operations that test for it and
    [CommandException] in the other seven; every other status throws
    [CommandException] with the whole response. *)
Theorem status_chain this op w w1 resp :
  guard op w = (Return tt, w) ->
  request (descriptor op) (requester_of this op) default_retries default_backoff w
    = (Return resp, w1) ->
  perform this op w =
  (if (200 <=? status resp) && (status resp <=? 299)
   then Return (success_value op resp)
   else if status resp =? UNDER_MAINTENANCE_STATUS
        then Throw UnderMaintenanceException
   else if status resp =? RATE_LIMIT_STATUS
        then (if checks_rate_limit op
              then Throw RateLimitException
              else Throw (CommandException resp))
   else Throw (CommandException resp), w1).
Proof.
  intros Hguard Hreq.
  rewrite perform_pipeline, Hguard, Hreq.
  unfold isSuccessStatusCode, isUnderMaintenanceResponse, isRateLimitResponse.
  destruct ((200 <=? status resp) && (status resp <=? 299)); [reflexivity |].
  destruct (status resp =? UNDER_MAINTENANCE_STATUS); [reflexivity |].
  destruct (checks_rate_limit op), (status resp =? RATE_LIMIT_STATUS); reflexivity.
Qed.


(** C8, as the code has it: when the executor throws inside an operation,
    what it throws is the error the transport raised on the last attempt;
    every operation but [submitFileAsync] lets it reach the caller as it
    is, and [submitFileAsync] throws a new [Error] that names the scan and
    holds the original error as its cause. *)
Theorem executor_error_surfaced this op w w1 e :
  guard op w = (Return tt, w) ->
  request (descriptor op) (requester_of this op) default_retries default_backoff w
    = (Throw e, w1) ->
  perform this op w =
    (Throw match op with
           | SubmitFileAsync _ _ scanId _ =>
               Error ("Failed to submit file to Copyleaks API for scan with ID '"
                        ++ scanId ++ "'.") e
           | _ => e
           end, w1)
  /\ exists error earlier,
       e = TransportError error
       /\ attempts (new_events w w1) = (earlier ++ [inr error])%list.
Proof.
  intros Hguard Hreq. split.
  - rewrite perform_pipeline, Hguard, Hreq. destruct op; reflexivity.
  - pose proof (request_new_events (descriptor op) (requester_of this op)
                  default_retries default_backoff w) as Hatt.
    rewrite Hreq in Hatt. simpl in Hatt.
    exact (Attempts_throw _ _ _ _ _ _ Hatt).
Qed.

(** ** More on the executor *)

Lemma request_stop_response config requester retries backoff w resp :
  fst (adapter requester config (net w)) = inl resp ->
  fst (request config requester retries backoff w) = Return resp
  /\ new_events w (snd (request config requester retries backoff w))
     = [Requested requester config (inl resp)]
  /\ clock (snd (request config requester retries backoff w)) = clock w.
Proof.
  intros Hout. rewrite request_step.
  pose proof (call_requester_trace requester config w) as Htr.
  pose proof (call_requester_outcome requester config w) as Hfst.
  assert (Hclock : clock (snd (call_requester requester config w)) = clock w).
  { unfold call_requester. destruct (adapter requester config (net w)); reflexivity. }
  destruct (call_requester requester config w) as [o w1]. simpl in *.
  rewrite Hout in Hfst. subst o. simpl.
  rewrite (new_events_app _ _ _ Htr). auto.
Qed.

Lemma request_stop_error config requester retries backoff w error :
  fst (adapter requester config (net w)) = inr error ->
  retries < 1 \/ retry_condition error = false ->
  fst (request config requester retries backoff w) = Throw (TransportError error)
  /\ new_events w (snd (request config requester retries backoff w))
     = [Requested requester config (inr error);
        LogRequestError (error_status error) retries backoff]
  /\ clock (snd (request config requester retries backoff w)) = clock w.
Proof.
  intros Hout Hstop. rewrite request_step.
  pose proof (call_requester_trace requester config w) as Htr.
  pose proof (call_requester_outcome requester config w) as Hfst.
  assert (Hclock : clock (snd (call_requester requester config w)) = clock w).
  { unfold call_requester. destruct (adapter requester config (net w)); reflexivity. }
  destruct (call_requester requester config w) as [o w1]. simpl in *.
  rewrite Hout in Hfst. subst o.
  assert (Hnew : new_events w
                   (console_log (LogRequestError (error_status error) retries backoff) w1)
                 = [Requested requester config (inr error);
                    LogRequestError (error_status error) retries backoff]).
  { apply new_events_app. simpl. rewrite Htr, <- app_assoc. reflexivity. }
  destruct (retries <? 1) eqn:Hlt; simpl.
  - auto.
  - destruct Hstop as [Hstop | Hstop].
    + apply Z.ltb_ge in Hlt. lia.
    + rewrite Hstop. simpl. auto.
Qed.

(** The world a retry starts from. *)
Lemma request_retry_step config requester retries backoff w error :
  fst (adapter requester config (net w)) = inr error ->
  1 <= retries ->
  retry_condition error = true ->
  exists w',
    request config requester retries backoff w
      = request config requester (retries - 1) (backoff * 2) w'
    /\ net w' = snd (adapter requester config (net w))
    /\ clock w' = clock w + backoff
    /\ new_events w (snd (request config requester (retries - 1) (backoff * 2) w'))
       = (Requested requester config (inr error)
            :: LogRequestError (error_status error) retries backoff
            :: LogBackoff config
            :: Waited backoff
            :: new_events w' (snd (request config requester (retries - 1) (backoff * 2) w')))%list.
Proof.
  intros Hout Hge Hcond.
  rewrite request_step.
  pose proof (call_requester_trace requester config w) as Htr.
  pose proof (call_requester_outcome requester config w) as Hfst.
  assert (Hclock : clock (snd (call_requester requester config w)) = clock w).
  { unfold call_requester. destruct (adapter requester config (net w)); reflexivity. }
  assert (Hnet : net (snd (call_requester requester config w))
                 = snd (adapter requester config (net w))).
  { unfold call_requester. destruct (adapter requester config (net w)); reflexivity. }
  destruct (call_requester requester config w) as [o w1]. simpl in *.
  rewrite Hout in Hfst. subst o.
  assert (Hlt : (retries <? 1) = false) by (apply Z.ltb_ge; lia).
  rewrite Hlt, Hcond.
  eexists. split; [reflexivity |]. split; [exact Hnet |]. split; [simpl; lia |].
  match goal with
  | |- new_events w (snd (request _ _ _ _ ?w4)) = _ =>
      destruct (request_attempts config requester (retries - 1) (backoff * 2) w4)
        as [evs [Hevs _]];
      rewrite (new_events_app _ _ _ Hevs);
      apply new_events_app; rewrite Hevs; simpl; rewrite Htr, <- !app_assoc; reflexivity
  end.
Qed.

Lemma request_attempts_nonempty config requester retries backoff w :
  exists o rest,
    attempts (new_events w (snd (request config requester retries backoff w))) = o :: rest.
Proof.
  pose proof (request_new_events config requester retries backoff w) as Hatt.
  destruct (Attempts_shape _ _ _ _ _ _ Hatt) as (_ & _ & Hlen & _).
  destruct (attempts (new_events w (snd (request config requester retries backoff w))))
    as [| o rest]; [discriminate | eauto].
Qed.

(** X1: [request] goes on to a second attempt exactly when it was called
    with at least one retry left and the first attempt raised an error that
    carries a response and either has status 429, 500 or 502 or has the
    code ETIMEDOUT. *)
Theorem second_attempt_iff config requester retries backoff w :
  (1 < List.length
         (attempts (new_events w (snd (request config requester retries backoff w)))))%nat
  <-> 1 <= retries
      /\ exists error r,
           fst (adapter requester config (net w)) = inr error
           /\ response error = Some r
           /\ (status r = 429 \/ status r = 500 \/ status r = 502
               \/ code error = Some "ETIMEDOUT").
Proof.
  destruct (fst (adapter requester config (net w))) as [resp | error] eqn:Hout.
  - destruct (request_stop_response config requester retries backoff w resp Hout)
      as (_ & Hnew & _).
    rewrite Hnew. simpl. split; [lia |].
    intros (_ & error & r & Habs & _). discriminate.
  - destruct (Z_lt_dec retries 1) as [Hlt | Hge].
    { destruct (request_stop_error config requester retries backoff w error Hout
                  (or_introl Hlt)) as (_ & Hnew & _).
      rewrite Hnew. simpl. split; [lia | intros [? _]; lia]. }
    destruct (retry_condition error) eqn:Hcond.
    + destruct (request_retry_step config requester retries backoff w error Hout
                  ltac:(lia) Hcond) as (w' & Heq & _ & _ & Hnew).
      rewrite Heq, Hnew. cbn [attempts List.length].
      destruct (request_attempts_nonempty config requester (retries - 1) (backoff * 2) w')
        as (o & rest & Hne).
      rewrite Hne. simpl. split; [| lia].
      intros _. split; [lia |].
      apply retry_condition_iff in Hcond. destruct Hcond as (r & Hr & Hst).
      exists error, r. auto.
    + destruct (request_stop_error config requester retries backoff w error Hout
                  (or_intror Hcond)) as (_ & Hnew & _).
      rewrite Hnew. simpl. split; [lia |].
      intros (_ & error' & r & Heq & Hr & Hst).
      injection Heq as <-.
      assert (Htrue : retry_condition error = true)
        by (apply retry_condition_iff; eauto).
      congruence.
Qed.

(** X2: called with no retry left ([retries < 1]), [request] makes one
    attempt and never waits: it returns the response of that attempt, or
    throws its error even when the error meets the retry condition. *)
Theorem no_budget_single_attempt config requester retries backoff w :
  retries < 1 ->
  let run := request config requester retries backoff w in
  let o := fst (adapter requester config (net w)) in
  attempts (new_events w (snd run)) = [o]
  /\ delays (new_events w (snd run)) = []
  /\ clock (snd run) = clock w
  /\ fst run = match o with
               | inl resp => Return resp
               | inr error => Throw (TransportError error)
               end.
Proof.
  intros Hlt run o. subst run o.
  destruct (fst (adapter requester config (net w))) as [resp | error] eqn:Hout.
  - destruct (request_stop_response config requester retries backoff w resp Hout)
      as (Hfst & Hnew & Hclock).
    rewrite Hnew. auto.
  - destruct (request_stop_error config requester retries backoff w error Hout
                (or_introl Hlt)) as (Hfst & Hnew & Hclock).
    rewrite Hnew. auto.
Qed.

Lemma Attempts_last config requester retries backoff evs r :
  Attempts config requester retries backoff evs r ->
  exists errors final,
    attempts evs = (map (@inr AxiosResponse AxiosError) errors ++ [final])%list
    /\ Forall (fun error => retry_condition error = true) errors
    /\ List.length errors = List.length (delays evs)
    /\ r = match final with
           | inl resp => Return resp
           | inr error => Throw (TransportError error)
           end.
Proof.
  induction 1 as [retries backoff n resp Hout
                 | retries backoff n error Hout Hlt
                 | retries backoff n error Hout Hge Hcond
                 | retries backoff n error evs r Hout Hge Hcond Hrest IH].
  - exists [], (inl resp). simpl. auto.
  - exists [], (inr error). simpl. auto.
  - exists [], (inr error). simpl. auto.
  - destruct IH as (errors & final & Hatt & Hall & Hlen & Hr).
    exists (error :: errors), final.
    cbn [attempts delays List.length map app]. rewrite Hatt.
    repeat split; auto.
Qed.

(** X3: in every execution of [request], each attempt before the last
    raised an error that meets the retry condition and was followed by one
    wait, and the last attempt alone decides the outcome: its response is
    returned, or its error is thrown as it is. *)
Theorem last_attempt_decides config requester retries backoff w :
  let run := request config requester retries backoff w in
  let evs := new_events w (snd run) in
  exists errors final,
    attempts evs = (map (@inr AxiosResponse AxiosError) errors ++ [final])%list
    /\ Forall (fun error => retry_condition error = true) errors
    /\ List.length errors = List.length (delays evs)
    /\ fst run = match final with
                 | inl resp => Return resp
                 | inr error => Throw (TransportError error)
                 end.
Proof.
  intros run evs.
  exact (Attempts_last _ _ _ _ _ _
           (request_new_events config requester retries backoff w)).
Qed.

Lemma sum_doubling backoff n :
  fold_right Z.add 0 (doubling backoff n) = backoff * (2 ^ Z.of_nat n - 1).
Proof.
  revert backoff. induction n as [| n IH]; intros backoff.
  - simpl. ring.
  - rewrite doubling_step. cbn [fold_right]. rewrite IH.
    rewrite Nat2Z.inj_succ, Z.pow_succ_r by lia. ring.
Qed.

Lemma request_clock config requester retries backoff w :
  clock (snd (request config requester retries backoff w))
  = clock w + total_delay (new_events w (snd (request config requester retries backoff w))).
Proof.
  remember (Z.to_nat retries) as fuel eqn:Hfuel.
  revert retries backoff w Hfuel.
  induction fuel as [fuel IH] using lt_wf_ind; intros retries backoff w Hfuel.
  destruct (fst (adapter requester config (net w))) as [resp | error] eqn:Hout.
  - destruct (request_stop_response config requester retries backoff w resp Hout)
      as (_ & Hnew & Hclock).
    rewrite Hnew, Hclock. unfold total_delay. simpl. lia.
  - destruct (Z_lt_dec retries 1) as [Hlt | Hge].
    { destruct (request_stop_error config requester retries backoff w error Hout
                  (or_introl Hlt)) as (_ & Hnew & Hclock).
      rewrite Hnew, Hclock. unfold total_delay. simpl. lia. }
    destruct (retry_condition error) eqn:Hcond.
    + destruct (request_retry_step config requester retries backoff w error Hout
                  ltac:(lia) Hcond) as (w' & Heq & _ & Hclock & Hnew).
      rewrite Heq, Hnew.
      rewrite (IH (Z.to_nat (retries - 1)) ltac:(lia) (retries - 1) (backoff * 2) w' eq_refl).
      rewrite Hclock. unfold total_delay. cbn [delays fold_right]. lia.
    + destruct (request_stop_error config requester retries backoff w error Hout
                  (or_intror Hcond)) as (_ & Hnew & Hclock).
      rewrite Hnew, Hclock. unfold total_delay. simpl. lia.
Qed.

(** X4: the delays one call of [request] passes to [setTimeout] add up to
    [backoff * (2^n - 1)] milliseconds, where [n] is the number of retries
    it made. *)
Theorem total_wait config requester retries backoff w :
  let evs := new_events w (snd (request config requester retries backoff w)) in
  total_delay evs = backoff * (2 ^ Z.of_nat (List.length (delays evs)) - 1).
Proof.
  intros evs.
  pose proof (request_new_events config requester retries backoff w) as Hatt.
  destruct (Attempts_shape _ _ _ _ _ _ Hatt) as (Hall & _).
  unfold total_delay. fold evs in Hall.
  rewrite Hall at 1. apply sum_doubling.
Qed.

Lemma request_recovers config requester k :
  forall retries backoff w n resp,
    Z.of_nat k <= Z.max 0 retries ->
    rejected_times requester config k (net w) = Some n ->
    fst (adapter requester config n) = inl resp ->
    fst (request config requester retries backoff w) = Return resp
    /\ List.length
         (attempts (new_events w (snd (request config requester retries backoff w)))) = S k
    /\ delays (new_events w (snd (request config requester retries backoff w)))
       = doubling backoff k.
Proof.
  induction k as [| k IH]; intros retries backoff w n resp Hk Hrej Hresp.
  - simpl in Hrej. injection Hrej as <-.
    destruct (request_stop_response config requester retries backoff w resp Hresp)
      as (Hfst & Hnew & _).
    rewrite Hnew. auto.
  - simpl in Hrej.
    destruct (adapter requester config (net w)) as [[resp' | error] n'] eqn:Hcall;
      [discriminate |].
    destruct (retry_condition error) eqn:Hcond; [| discriminate].
    assert (Hout : fst (adapter requester config (net w)) = inr error)
      by (rewrite Hcall; reflexivity).
    destruct (request_retry_step config requester retries backoff w error Hout
                ltac:(lia) Hcond) as (w' & Heq & Hnet & _ & Hnew).
    rewrite Hcall in Hnet. simpl in Hnet. rewrite <- Hnet in Hrej.
    destruct (IH (retries - 1) (backoff * 2) w' n resp ltac:(lia) Hrej Hresp)
      as (Hfst & Hlen & Hdel).
    rewrite Heq, Hnew. cbn [attempts delays List.length].
    rewrite Hlen, Hdel, doubling_step. auto.
Qed.

(** X5: when the first [k] calls are rejected with errors that meet the
    retry condition, [k] is within the budget and the next call is answered
    with a response, [request] returns that response after [k + 1] attempts,
    having waited [backoff], [2*backoff], ..., [2^(k-1)*backoff] between
    them. *)
Theorem recovers_after_rejections config requester retries backoff w k n resp :
  Z.of_nat k <= retries ->
  rejected_times requester config k (net w) = Some n ->
  fst (adapter requester config n) = inl resp ->
  let run := request config requester retries backoff w in
  fst run = Return resp
  /\ List.length (attempts (new_events w (snd run))) = S k
  /\ delays (new_events w (snd run)) = doubling backoff k
  /\ clock (snd run) = clock w + backoff * (2 ^ Z.of_nat k - 1).
Proof.
  intros Hk Hrej Hresp run. subst run.
  destruct (request_recovers config requester k retries backoff w n resp
              ltac:(lia) Hrej Hresp) as (Hfst & Hlen & Hdel).
  repeat split; try assumption.
  rewrite request_clock. unfold total_delay. rewrite Hdel, sum_doubling. reflexivity.
Qed.

Lemma request_waits_at_least config requester k :
  forall retries backoff w n,
    Z.of_nat k <= Z.max 0 retries ->
    rejected_times requester config k (net w) = Some n ->
    (k <= List.length
            (delays (new_events w (snd (request config requester retries backoff w)))))%nat.
Proof.
  induction k as [| k IH]; intros retries backoff w n Hk Hrej.
  - lia.
  - simpl in Hrej.
    destruct (adapter requester config (net w)) as [[resp' | error] n'] eqn:Hcall;
      [discriminate |].
    destruct (retry_condition error) eqn:Hcond; [| discriminate].
    assert (Hout : fst (adapter requester config (net w)) = inr error)
      by (rewrite Hcall; reflexivity).
    destruct (request_retry_step config requester retries backoff w error Hout
                ltac:(lia) Hcond) as (w' & Heq & Hnet & _ & Hnew).
    rewrite Hcall in Hnet. simpl in Hnet. rewrite <- Hnet in Hrej.
    pose proof (IH (retries - 1) (backoff * 2) w' n ltac:(lia) Hrej) as Hinner.
    rewrite Heq, Hnew. cbn [delays List.length]. lia.
Qed.

(** C3: in every execution of the retry loop the waits are [backoff],
    [2*backoff], [4*backoff], ..., in that order; the first attempt is
    preceded by no wait and attempt k+1 by exactly one wait, of
    [backoff * 2^(k-1)] milliseconds; there is one wait per retry and at
    most [retries] of them.  The waits do happen: when the first [k] calls
    are rejected with errors that meet the retry condition and [k] is
    within the budget, at least [k] waits are made; and when every call is
    rejected so, all N = [retries] waits are made, [backoff * 2^(k-1)]
    before attempt k+1 for k = 1..N. *)
Theorem backoff_doubles config requester retries backoff w :
  let evs := new_events w (snd (request config requester retries backoff w)) in
  (delays evs = doubling backoff (List.length (delays evs))
   /\ delays_before [] evs
      = [] :: map (fun d => [d]) (doubling backoff (List.length (delays evs)))
   /\ List.length (attempts evs) = S (List.length (delays evs))
   /\ Z.of_nat (List.length (delays evs)) <= Z.max 0 retries)
  /\ (forall k n,
        Z.of_nat k <= retries ->
        rejected_times requester config k (net w) = Some n ->
        (k <= List.length (delays evs))%nat)
  /\ (0 <= retries ->
      always_retryable requester config ->
      delays evs = doubling backoff (Z.to_nat retries)
      /\ delays_before [] evs
         = [] :: map (fun d => [d]) (doubling backoff (Z.to_nat retries))).
Proof.
  intros evs.
  pose proof (request_new_events config requester retries backoff w) as Hatt.
  destruct (Attempts_shape _ _ _ _ _ _ Hatt) as (Hall & Hdel & Hlen & Hbound & _).
  split; [repeat split; assumption |]. split.
  - intros k n Hk Hrej.
    apply (request_waits_at_least config requester k retries backoff w n); [lia | exact Hrej].
  - intros HN Hfail.
    destruct (Attempts_exhaust _ _ _ _ _ _ Hatt Hfail HN) as (Hcount & _).
    assert (Hn : List.length (delays evs) = Z.to_nat retries) by (subst evs; lia).
    subst evs. rewrite <- Hn. split; assumption.
Qed.

Lemma Attempts_logged_state config requester retries backoff evs r :
  Attempts config requester retries backoff evs r ->
  logged_state evs
  = map (fun i => (retries - Z.of_nat i, backoff * 2 ^ Z.of_nat i))
      (seq 0 (List.length (logged_state evs))).
Proof.
  induction 1 as [retries backoff n resp Hout
                 | retries backoff n error Hout Hlt
                 | retries backoff n error Hout Hge Hcond
                 | retries backoff n error evs r Hout Hge Hcond Hrest IH].
  - reflexivity.
  - simpl. repeat f_equal; lia.
  - simpl. repeat f_equal; lia.
  - cbn [logged_state List.length].
    remember (List.length (logged_state evs)) as len eqn:Hlen.
    rewrite IH. cbn [seq map]. f_equal.
    + f_equal; lia.
    + rewrite <- seq_shift, map_map. apply map_ext. intros i.
      rewrite Nat2Z.inj_succ, Z.pow_succ_r by lia. f_equal; lia.
Qed.

(** X6: the error log lines of one call of [request] report the retry state
    in lockstep: line [i] (counting from 0) shows [retries - i] retries left
    and a backoff of [backoff * 2^i]. *)
Theorem log_lines_track_retry_state config requester retries backoff w :
  let evs := new_events w (snd (request config requester retries backoff w)) in
  logged_state evs
  = map (fun i => (retries - Z.of_nat i, backoff * 2 ^ Z.of_nat i))
      (seq 0 (List.length (logged_state evs))).
Proof.
  intros evs.
  exact (Attempts_logged_state _ _ _ _ _ _
           (request_new_events config requester retries backoff w)).
Qed.

Lemma request_returns config requester retries backoff w resp :
  fst (request config requester retries backoff w) = Return resp ->
  exists k n,
    Z.of_nat k <= Z.max 0 retries
    /\ rejected_times requester config k (net w) = Some n
    /\ fst (adapter requester config n) = inl resp.
Proof.
  remember (Z.to_nat retries) as fuel eqn:Hfuel.
  revert retries backoff w Hfuel.
  induction fuel as [fuel IH] using lt_wf_ind; intros retries backoff w Hfuel Hret.
  destruct (fst (adapter requester config (net w))) as [resp' | error] eqn:Hout.
  - destruct (request_stop_response config requester retries backoff w resp' Hout)
      as (Hfst & _).
    rewrite Hfst in Hret. injection Hret as ->.
    exists 0%nat, (net w). simpl. repeat split; [lia | exact Hout].
  - destruct (Z_lt_dec retries 1) as [Hlt | Hge].
    { destruct (request_stop_error config requester retries backoff w error Hout
                  (or_introl Hlt)) as (Hfst & _).
      rewrite Hfst in Hret. discriminate. }
    destruct (retry_condition error) eqn:Hcond.
    + destruct (request_retry_step config requester retries backoff w error Hout
                  ltac:(lia) Hcond) as (w' & Heq & Hnet & _).
      rewrite Heq in Hret.
      destruct (IH (Z.to_nat (retries - 1)) ltac:(lia) (retries - 1) (backoff * 2) w'
                  eq_refl Hret) as (k & n & Hk & Hrej & Hresp).
      exists (S k), n. repeat split; [lia | | exact Hresp].
      simpl. destruct (adapter requester config (net w)) as [o n'].
      simpl in Hout, Hnet. subst o n'. rewrite Hcond. exact Hrej.
    + destruct (request_stop_error config requester retries backoff w error Hout
                  (or_intror Hcond)) as (Hfst & _).
      rewrite Hfst in Hret. discriminate.
Qed.

(** X15: [request] returns a response exactly when, for some [k] within
    the budget, the first [k] calls are rejected with errors that meet the
    retry condition and the next call is answered with that response. *)
Theorem returns_iff_recovers config requester retries backoff w resp :
  fst (request config requester retries backoff w) = Return resp
  <-> exists k n,
        Z.of_nat k <= Z.max 0 retries
        /\ rejected_times requester config k (net w) = Some n
        /\ fst (adapter requester config n) = inl resp.
Proof.
  split.
  - apply request_returns.
  - intros (k & n & Hk & Hrej & Hresp).
    apply (request_recovers config requester k retries backoff w n resp Hk Hrej Hresp).
Qed.

(** X16: a response is never lost by allowing more retries or by changing
    the backoff: if [request] returns a response with some budget, it
    returns the same response from the same network state with any larger
    budget, whatever the backoff, the clock and the earlier trace. *)
Theorem larger_budget_keeps_response
    config requester retries retries' backoff backoff' w w' resp :
  fst (request config requester retries backoff w) = Return resp ->
  retries <= retries' ->
  net w' = net w ->
  fst (request config requester retries' backoff' w') = Return resp.
Proof.
  intros Hret Hle Hnet.
  destruct (request_returns config requester retries backoff w resp Hret)
    as (k & n & Hk & Hrej & Hresp).
  rewrite <- Hnet in Hrej.
  apply (request_recovers config requester k retries' backoff' w' n resp
           ltac:(lia) Hrej Hresp).
Qed.

(** ** More on the operations *)

Lemma verifyAuthToken_cases authToken m w :
  verifyAuthToken authToken m w = (Return tt, w)
  \/ verifyAuthToken authToken m w = (Throw AuthExipredException, w).
Proof.
  unfold verifyAuthToken, bind, Date_now, ret, throw.
  destruct (number_le _ _); auto.
Qed.

Lemma guard_cases op w :
  guard op w = (Return tt, w)
  \/ (guard op w = (Throw AuthExipredException, w)
      /\ exists authToken, credential op = Some authToken).
Proof.
  unfold guard. destruct (credential op) as [authToken |].
  - destruct (verifyAuthToken_cases authToken default_timeUntilExpiry w) as [H | H];
      rewrite H; eauto.
  - left. reflexivity.
Qed.

Lemma new_events_refl (w : World) : new_events w w = [].
Proof.
  apply new_events_app. rewrite app_nil_r. reflexivity.
Qed.

Lemma perform_cases this op w :
  (guard op w = (Throw AuthExipredException, w)
   /\ perform this op w = (Throw AuthExipredException, w))
  \/ (guard op w = (Return tt, w)
      /\ snd (perform this op w)
         = snd (request (descriptor op) (requester_of this op)
                  default_retries default_backoff w)).
Proof.
  rewrite perform_pipeline.
  destruct (guard_cases op w) as [Hguard | [Hguard _]]; rewrite Hguard.
  - right. split; [reflexivity |].
    destruct (request (descriptor op) (requester_of this op)
                default_retries default_backoff w) as [[resp | e] w1]; reflexivity.
  - left. auto.
Qed.

(** X7: one call of a public operation sends at most 11 requests (the
    first attempt and the 10 default retries), waits at most 10 times, and
    spends at most 2000 * (2^10 - 1) = 2046000 milliseconds waiting. *)
Theorem operation_effort_bounded this op w :
  let evs := new_events w (snd (perform this op w)) in
  (List.length (attempts evs) <= 11)%nat
  /\ (List.length (delays evs) <= 10)%nat
  /\ total_delay evs <= 2046000.
Proof.
  intros evs. subst evs.
  destruct (perform_cases this op w) as [[_ Hperform] | [_ Hsnd]].
  - rewrite Hperform. simpl. rewrite new_events_refl.
    unfold total_delay. simpl. repeat split; lia.
  - rewrite Hsnd.
    pose proof (request_new_events (descriptor op) (requester_of this op)
                  default_retries default_backoff w) as Hatt.
    destruct (Attempts_shape _ _ _ _ _ _ Hatt) as (Hall & _ & Hlen & Hbound & _).
    set (evs := new_events w
                  (snd (request (descriptor op) (requester_of this op)
                          default_retries default_backoff w))) in *.
    unfold default_retries in Hbound.
    assert (Hn : (List.length (delays evs) <= 10)%nat) by lia.
    repeat split; [lia | exact Hn |].
    unfold total_delay. rewrite Hall, sum_doubling. unfold default_backoff.
    assert (Hpow : 2 ^ Z.of_nat (List.length (delays evs)) <= 2 ^ 10)
      by (apply Z.pow_le_mono_r; lia).
    change (2 ^ 10) with 1024 in Hpow. lia.
Qed.

(** X8: every request a public operation sends, retries included, carries
    the descriptor the operation built; through a client made by the
    constructor it goes to the identity server for [loginAsync] and to the
    API server for every other operation, and its only header is the bearer
    token of the credential when the operation takes one. *)
Theorem operation_sends_own_descriptor op w :
  Forall (fun d : AxiosInstance * AxiosRequestConfig =>
            snd d = descriptor op
            /\ baseURL (fst d) = match op with
                                 | LoginAsync _ _ => IDENTITY_SERVER_URI
                                 | _ => API_SERVER_URI
                                 end
            /\ config_headers (snd d)
               = match credential op with
                 | Some authToken =>
                     [("Authorization", "Bearer " ++ access_token authToken)]
                 | None => []
                 end)
    (descriptors_sent (new_events w (snd (perform constructor op w)))).
Proof.
  destruct (perform_cases constructor op w) as [[_ Hperform] | [_ Hsnd]].
  - rewrite Hperform. simpl. rewrite new_events_refl. constructor.
  - rewrite Hsnd.
    pose proof (request_new_events (descriptor op) (requester_of constructor op)
                  default_retries default_backoff w) as Hatt.
    destruct (Attempts_shape _ _ _ _ _ _ Hatt) as (_ & _ & _ & _ & Hsame).
    eapply Forall_impl; [| exact Hsame].
    intros d ->. destruct op; simpl; auto.
Qed.

(** X9: what a public operation can throw.  [AuthExipredException] comes
    only from an operation that takes a credential, and then nothing was
    sent; [UnderMaintenanceException], [RateLimitException] and
    [CommandException] come only from a response the executor returned
    whose status is not a success, [RateLimitException] only in an
    operation with the rate-limit branch, and [CommandException] carries
    that very response; anything else is the transport error the executor
    threw, wrapped by [submitFileAsync] alone. *)
Theorem thrown_exceptions this op w w' x :
  perform this op w = (Throw x, w') ->
  let run := request (descriptor op) (requester_of this op)
               default_retries default_backoff w in
  (x = AuthExipredException /\ w' = w /\ exists authToken, credential op = Some authToken)
  \/ (exists resp,
        fst run = Return resp
        /\ isSuccessStatusCode (status resp) = false
        /\ (x = UnderMaintenanceException
              /\ isUnderMaintenanceResponse (status resp) = true
            \/ x = RateLimitException
                 /\ checks_rate_limit op = true
                 /\ isRateLimitResponse (status resp) = true
            \/ x = CommandException resp))
  \/ (exists error,
        fst run = Throw (TransportError error)
        /\ x = surfaced op (TransportError error)).
Proof.
  intros Hperform run. subst run.
  rewrite perform_pipeline in Hperform.
  destruct (guard_cases op w) as [Hguard | [Hguard Hcred]]; rewrite Hguard in Hperform.
  - right.
    pose proof (request_new_events (descriptor op) (requester_of this op)
                  default_retries default_backoff w) as Hatt.
    destruct (request (descriptor op) (requester_of this op)
                default_retries default_backoff w) as [[resp | e] w1]; simpl in *.
    + left. exists resp. split; [reflexivity |].
      destruct (isSuccessStatusCode (status resp)); [discriminate |].
      split; [reflexivity |].
      destruct (isUnderMaintenanceResponse (status resp)).
      { injection Hperform as <- _. auto. }
      destruct (checks_rate_limit op), (isRateLimitResponse (status resp));
        simpl in Hperform; injection Hperform as <- _; auto.
    + right. destruct (Attempts_throw _ _ _ _ _ _ Hatt) as (error & _ & -> & _).
      exists error. injection Hperform as <- _. auto.
  - left. injection Hperform as <- <-. auto.
Qed.

(** X10: a public operation returns normally only when the token check
    passed and the executor returned a response with a success status; the
    value returned is then [response.data] or nothing, as the operation
    has it. *)
Theorem returns_only_on_success this op w w' v :
  perform this op w = (Return v, w') ->
  guard op w = (Return tt, w)
  /\ exists resp,
       request (descriptor op) (requester_of this op) default_retries default_backoff w
         = (Return resp, w')
       /\ isSuccessStatusCode (status resp) = true
       /\ v = success_value op resp.
Proof.
  intros Hperform.
  rewrite perform_pipeline in Hperform.
  destruct (guard_cases op w) as [Hguard | [Hguard _]]; rewrite Hguard in Hperform;
    [| discriminate].
  split; [exact Hguard |].
  destruct (request (descriptor op) (requester_of this op)
              default_retries default_backoff w) as [[resp | e] w1]; [| discriminate].
  exists resp.
  destruct (isSuccessStatusCode (status resp)).
  - injection Hperform as <- <-. auto.
  - destruct (isUnderMaintenanceResponse (status resp)); [discriminate |].
    destruct (checks_rate_limit op && isRateLimitResponse (status resp)); discriminate.
Qed.

(** X11: a public operation sends no request at all exactly when its token
    check throws; an operation without a credential, and one whose
    credential passes the check, always sends at least one. *)
Theorem no_request_iff_guard_fails this op w :
  attempts (new_events w (snd (perform this op w))) = []
  <-> fst (guard op w) = Throw AuthExipredException.
Proof.
  destruct (perform_cases this op w) as [[Hguard Hperform] | [Hguard Hsnd]].
  - rewrite Hperform, Hguard. simpl. rewrite new_events_refl. simpl. tauto.
  - rewrite Hsnd, Hguard. simpl.
    destruct (request_attempts_nonempty (descriptor op) (requester_of this op)
                default_retries default_backoff w) as (o & rest & Hne).
    rewrite Hne. split; discriminate.
Qed.

(** ** More on the token guard *)




(** ** URLs *)

(** X14: two file submissions go to the same URL only when they are for
    the same product and the same scan id, and likewise two OCR submissions
    and two URL submissions. *)
Theorem submission_url_identifies_scan
    product product' authToken authToken' scanId scanId' submission submission' :
  (url (descriptor (SubmitFileAsync product authToken scanId submission))
   = url (descriptor (SubmitFileAsync product' authToken' scanId' submission'))
   -> product = product' /\ scanId = scanId')
  /\ (url (descriptor (SubmitFileOcrAsync product authToken scanId submission))
      = url (descriptor (SubmitFileOcrAsync product' authToken' scanId' submission'))
      -> product = product' /\ scanId = scanId')
  /\ (url (descriptor (SubmitUrlAsync product authToken scanId submission))
      = url (descriptor (SubmitUrlAsync product' authToken' scanId' submission'))
      -> product = product' /\ scanId = scanId').
Proof.
  repeat split; destruct product, product'; simpl in H;
    try discriminate; try reflexivity; congruence.
Qed.

End Properties.

(** * The properties at sample inputs *)

Lemma failing_host_always_retryable requester config :
  @always_retryable failing_host requester config.
Proof.
  intros n. eexists. split; [reflexivity |].
  destruct (n mod 3)%nat as [| [| [| [| k]]]]; reflexivity.
Qed.


(** C2 at a connection timeout: the transport rejects the call with code
    ETIMEDOUT and no response; with the whole default budget left,
    [request] throws the error after this one attempt and waits for
    nothing. *)
Theorem timeout_without_response_thrown_at_once :
  let w := @start_world timeout_host [] 0 in
  let run := @request timeout_host sample_config (api (@constructor timeout_host))
               default_retries default_backoff w in
  retry_condition timeout_error = false
  /\ fst run = Throw (TransportError timeout_error)
  /\ attempts (trace (snd run)) = [inr timeout_error]
  /\ delays (trace (snd run)) = []
  /\ logged_retries (trace (snd run)) = [10].
Proof.
  vm_compute. repeat split; reflexivity.
Qed.

(** Scenario A of the spec: two retries allowed, 100 ms initial backoff,
    the transport raises 502 twice and then answers 200. *)
Example scenario_A :
  let w := @start_world timeout_host
             [inr (status_error 502); inr (status_error 502); inl (sample_response 200)] 0 in
  let run := @request timeout_host sample_config (api (@constructor timeout_host)) 2 100 w in
  fst run = Return (sample_response 200)
  /\ delays (trace (snd run)) = [100; 200]
  /\ List.length (attempts (trace (snd run))) = 3%nat.
Proof.
  vm_compute. repeat split; reflexivity.
Qed.

(** C4 across a clock change.  On a host in Europe/Copenhagen, half an
    hour after the clocks went back, [setMinutes] moves the date 55 minutes
    into the past: [verifyAuthToken] with the five-minute margin returns
    normally for a credential that expired half an hour ago.  Two minutes
    before the clocks go back it moves the date 65 minutes ahead, and a
    credential still good for 32 minutes is rejected. *)
Theorem verifyAuthToken_wrong_across_clock_change :
  let after := @start_world copenhagen_host [] (clocks_go_back + 30 * msPerMinute) in
  let before := @start_world copenhagen_host [] (clocks_go_back - 2 * msPerMinute) in
  (@Date_of_string copenhagen_host (expires token_expiring_at_change) = Some clocks_go_back
   /\ clocks_go_back <= clock after + 5 * msPerMinute
   /\ @setMinutes copenhagen_host (Some (clock after)) (number_add (@getMinutes copenhagen_host (Some (clock after))) 5)
      = Some (clock after - 55 * msPerMinute)
   /\ verifyAuthToken token_expiring_at_change 5 after = (Return tt, after))
  /\ (@Date_of_string copenhagen_host (expires token_expiring_after_change)
      = Some (clocks_go_back + 30 * msPerMinute)
      /\ clock before + 5 * msPerMinute < clocks_go_back + 30 * msPerMinute
      /\ @setMinutes copenhagen_host (Some (clock before)) (number_add (@getMinutes copenhagen_host (Some (clock before))) 5)
         = Some (clock before + 65 * msPerMinute)
      /\ verifyAuthToken token_expiring_after_change 5 before
         = (Throw AuthExipredException, before)).
Proof.
  intros after before. repeat split;
    first [ vm_compute; reflexivity | vm_compute; intros; discriminate ].
Qed.


Lemma verifyAuthToken_malformed_expiry_witness :
  @Date_of_string timeout_host (expires malformed_token) = None
  /\ verifyAuthToken malformed_token 5 (@start_world timeout_host [] sample_expiry)
     = (Return tt, @start_world timeout_host [] sample_expiry).
Proof.
  split; [reflexivity |].
  apply (@verifyAuthToken_malformed_expiry timeout_host). reflexivity.
Defined.

Lemma response_returned_without_retry_witness :
  let w := @start_world timeout_host [inl (sample_response 512)] 0 in
  fst (adapter (api (@constructor timeout_host)) sample_config (net w))
    = inl (sample_response 512)
  /\ (let run := request sample_config (api (@constructor timeout_host))
                   default_retries default_backoff w in
      fst run = Return (sample_response 512)
      /\ new_events w (snd run)
         = [Requested (api (@constructor timeout_host)) sample_config
              (inl (sample_response 512))]
      /\ delays (new_events w (snd run)) = []
      /\ clock (snd run) = clock w).
Proof.
  intros w. split; [reflexivity |].
  apply (@response_returned_without_retry timeout_host sample_config
           (api (@constructor timeout_host)) default_retries default_backoff w
           (sample_response 512)).
  reflexivity.
Defined.

(** C5 as stated fails in [submitFileOcrAsync]: a response with the
    rate-limit status, which is neither a success nor the maintenance
    status, makes it throw [CommandException], not [RateLimitException]. *)
Lemma rate_limit_status_in_submitFileOcrAsync :
  let resp := sample_response 513 in
  let w := @start_world timeout_host [inl resp] one_hour_before in
  let op := SubmitFileOcrAsync education sample_token "scan-1" JNull in
  @isRateLimitResponse timeout_host (status resp) = true
  /\ isSuccessStatusCode (status resp) = false
  /\ @isUnderMaintenanceResponse timeout_host (status resp) = false
  /\ fst (perform (@constructor timeout_host) op w) = Throw (CommandException resp)
  /\ fst (perform (@constructor timeout_host) op w) <> Throw RateLimitException.
Proof.
  vm_compute. repeat split; try reflexivity. discriminate.
Qed.

Lemma status_chain_witness :
  let resp := sample_response 513 in
  let w := @start_world timeout_host [inl resp] one_hour_before in
  let op := GetCreditsBalanceAsync education sample_token in
  let this := @constructor timeout_host in
  let w1 := snd (request (descriptor op) (requester_of this op)
                   default_retries default_backoff w) in
  guard op w = (Return tt, w)
  /\ request (descriptor op) (requester_of this op) default_retries default_backoff w
     = (Return resp, w1)
  /\ perform this op w = (Throw RateLimitException, w1).
Proof.
  intros resp w op this w1.
  assert (Hguard : guard op w = (Return tt, w)) by (vm_compute; reflexivity).
  assert (Hreq : request (descriptor op) (requester_of this op)
                   default_retries default_backoff w = (Return resp, w1))
    by (vm_compute; reflexivity).
  split; [exact Hguard |]. split; [exact Hreq |].
  rewrite (@status_chain timeout_host this op w w1 resp Hguard Hreq).
  reflexivity.
Defined.

(** C7 across a clock change.  On the same host, half an hour after the
    clocks went back, [deleteAsync] called with a credential that expired
    half an hour ago, which is at or before now plus the margin, passes the
    token check, sends its request and returns. *)
Theorem expired_credential_sent_across_clock_change :
  let w := @start_world copenhagen_host [inl (sample_response 200)]
             (clocks_go_back + 30 * msPerMinute) in
  let op := DeleteAsync education token_expiring_at_change JNull in
  let run := perform (@constructor copenhagen_host) op w in
  credential op = Some token_expiring_at_change
  /\ @Date_of_string copenhagen_host (expires token_expiring_at_change) = Some clocks_go_back
  /\ clocks_go_back <= clock w + default_timeUntilExpiry * msPerMinute
  /\ fst run = Return None
  /\ attempts (trace (snd run)) = [inl (sample_response 200)].
Proof.
  intros w op run. repeat split;
    first [ vm_compute; reflexivity | vm_compute; intros; discriminate ].
Qed.


(** Scenario C of the spec: the transport answers 512 without raising. *)
Example scenario_C :
  let w := @start_world timeout_host [inl (sample_response 512)] one_hour_before in
  let run := perform (@constructor timeout_host)
               (GetCreditsBalanceAsync education sample_token) w in
  fst run = Throw UnderMaintenanceException
  /\ List.length (attempts (trace (snd run))) = 1%nat
  /\ delays (trace (snd run)) = [].
Proof.
  vm_compute. repeat split; reflexivity.
Qed.

(** C8 as stated fails in [submitFileAsync]: the 404 error the executor
    throws reaches the caller inside a new [Error]. *)
Lemma submitFileAsync_wraps_transport_error :
  let op := SubmitFileAsync education sample_token "scan-1" JNull in
  let this := @constructor not_found_host in
  let w := @start_world not_found_host [] one_hour_before in
  fst (request (descriptor op) (requester_of this op) default_retries default_backoff w)
    = Throw (TransportError (status_error 404))
  /\ fst (perform this op w)
     = Throw (Error "Failed to submit file to Copyleaks API for scan with ID 'scan-1'."
                (TransportError (status_error 404)))
  /\ fst (perform this op w) <> Throw (TransportError (status_error 404)).
Proof.
  vm_compute. repeat split; try reflexivity. discriminate.
Qed.

Lemma executor_error_surfaced_witness :
  let op := GetCreditsBalanceAsync education sample_token in
  let this := @constructor not_found_host in
  let w := @start_world not_found_host [] one_hour_before in
  let e := TransportError (status_error 404) in
  let w1 := snd (request (descriptor op) (requester_of this op)
                   default_retries default_backoff w) in
  guard op w = (Return tt, w)
  /\ request (descriptor op) (requester_of this op) default_retries default_backoff w
     = (Throw e, w1)
  /\ perform this op w = (Throw e, w1).
Proof.
  intros op this w e w1.
  assert (Hguard : guard op w = (Return tt, w)) by (vm_compute; reflexivity).
  assert (Hreq : request (descriptor op) (requester_of this op)
                   default_retries default_backoff w = (Throw e, w1))
    by (vm_compute; reflexivity).
  split; [exact Hguard |]. split; [exact Hreq |].
  exact (proj1 (@executor_error_surfaced not_found_host this op w w1 e Hguard Hreq)).
Defined.

Lemma no_budget_single_attempt_witness :
  let w := @start_world failing_host 0%nat 0 in
  let requester := api (@constructor failing_host) in
  0 < 1
  /\ (let run := request sample_config requester 0 100 w in
      let o := fst (adapter requester sample_config (net w)) in
      attempts (new_events w (snd run)) = [o]
      /\ delays (new_events w (snd run)) = []
      /\ clock (snd run) = clock w
      /\ fst run = match o with
                   | inl resp => Return resp
                   | inr error => Throw (TransportError error)
                   end).
Proof.
  intros w requester. split; [lia |].
  apply (@no_budget_single_attempt failing_host sample_config requester 0 100 w). lia.
Defined.

Lemma recovers_after_rejections_witness :
  let w := @start_world timeout_host
             [inr (status_error 502); inr (status_error 502); inl (sample_response 200)] 0 in
  let requester := api (@constructor timeout_host) in
  let n : @Net timeout_host := [inl (sample_response 200)] in
  Z.of_nat 2 <= 2
  /\ rejected_times requester sample_config 2 (net w) = Some n
  /\ fst (adapter requester sample_config n) = inl (sample_response 200)
  /\ (let run := request sample_config requester 2 100 w in
      fst run = Return (sample_response 200)
      /\ List.length (attempts (new_events w (snd run))) = 3%nat
      /\ delays (new_events w (snd run)) = doubling 100 2
      /\ clock (snd run) = clock w + 100 * (2 ^ Z.of_nat 2 - 1)).
Proof.
  intros w requester n.
  assert (H1 : Z.of_nat 2 <= 2) by lia.
  assert (H2 : rejected_times requester sample_config 2 (net w) = Some n) by reflexivity.
  assert (H3 : fst (adapter requester sample_config n) = inl (sample_response 200))
    by reflexivity.
  repeat (split; [assumption |]).
  exact (@recovers_after_rejections timeout_host sample_config requester 2 100 w 2 n
           (sample_response 200) H1 H2 H3).
Defined.

Lemma thrown_exceptions_witness :
  let op := GetCreditsBalanceAsync education sample_token in
  let this := @constructor not_found_host in
  let w := @start_world not_found_host [] one_hour_before in
  let x := TransportError (status_error 404) in
  let w' := snd (perform this op w) in
  perform this op w = (Throw x, w')
  /\ (let run := request (descriptor op) (requester_of this op)
                   default_retries default_backoff w in
      (x = AuthExipredException /\ w' = w
       /\ exists authToken, credential op = Some authToken)
      \/ (exists resp,
            fst run = Return resp
            /\ isSuccessStatusCode (status resp) = false
            /\ (x = UnderMaintenanceException
                  /\ @isUnderMaintenanceResponse not_found_host (status resp) = true
                \/ x = RateLimitException
                     /\ checks_rate_limit op = true
                     /\ @isRateLimitResponse not_found_host (status resp) = true
                \/ x = CommandException resp))
      \/ (exists error,
            fst run = Throw (TransportError error)
            /\ x = surfaced op (TransportError error))).
Proof.
  intros op this w x w'.
  assert (H : perform this op w = (Throw x, w')) by (vm_compute; reflexivity).
  split; [exact H |].
  exact (@thrown_exceptions not_found_host this op w w' x H).
Defined.

Lemma returns_only_on_success_witness :
  let op := GetCreditsBalanceAsync education sample_token in
  let this := @constructor timeout_host in
  let w := @start_world timeout_host [inl (sample_response 200)] one_hour_before in
  let v := Some (JString "body") in
  let w' := snd (perform this op w) in
  perform this op w = (Return v, w')
  /\ guard op w = (Return tt, w)
  /\ exists resp,
       request (descriptor op) (requester_of this op) default_retries default_backoff w
         = (Return resp, w')
       /\ isSuccessStatusCode (status resp) = true
       /\ v = success_value op resp.
Proof.
  intros op this w v w'.
  assert (H : perform this op w = (Return v, w')) by (vm_compute; reflexivity).
  split; [exact H |].
  exact (@returns_only_on_success timeout_host this op w w' v H).
Defined.


Lemma submission_url_identifies_scan_witness :
  url (descriptor (SubmitFileAsync education sample_token "scan-1" JNull))
  = url (descriptor
           (SubmitFileAsync education malformed_token "scan-1" (JString "other")))
  /\ education = education /\ "scan-1" = "scan-1".
Proof.
  assert (H : url (descriptor
                     (SubmitFileAsync education sample_token "scan-1" JNull))
              = url (descriptor
                       (SubmitFileAsync education malformed_token "scan-1"
                          (JString "other")))) by reflexivity.
  split; [exact H |].
  exact (proj1 (submission_url_identifies_scan education education
                  sample_token malformed_token "scan-1" "scan-1" JNull (JString "other"))
           H).
Defined.

Lemma larger_budget_keeps_response_witness :
  let script : @Net timeout_host :=
    [inr (status_error 502); inr (status_error 502); inl (sample_response 200)] in
  let w := @start_world timeout_host script 0 in
  let w' := @start_world timeout_host script sample_expiry in
  let requester := api (@constructor timeout_host) in
  fst (request sample_config requester 2 100 w) = Return (sample_response 200)
  /\ 2 <= 10
  /\ net w' = net w
  /\ fst (request sample_config requester 10 2000 w') = Return (sample_response 200).
Proof.
  intros script w w' requester.
  assert (H1 : fst (request sample_config requester 2 100 w)
               = Return (sample_response 200)) by (vm_compute; reflexivity).
  assert (H2 : 2 <= 10) by lia.
  assert (H3 : net w' = net w) by reflexivity.
  repeat (split; [assumption |]).
  exact (@larger_budget_keeps_response timeout_host sample_config requester 2 10 100 2000
           w w' (sample_response 200) H1 H2 H3).
Defined.

Lemma backoff_doubles_witness :
  let w := @start_world failing_host 0%nat 0 in
  let requester := api (@constructor failing_host) in
  let evs := new_events w (snd (request sample_config requester 3 100 w)) in
  0 <= 3
  /\ @always_retryable failing_host requester sample_config
  /\ delays evs = [100; 200; 400]
  /\ delays_before [] evs = [[]; [100]; [200]; [400]].
Proof.
  intros w requester evs.
  assert (H1 : 0 <= 3) by lia.
  assert (H2 : @always_retryable failing_host requester sample_config)
    by apply failing_host_always_retryable.
  split; [exact H1 |]. split; [exact H2 |].
  exact (proj2 (proj2 (@backoff_doubles failing_host sample_config requester 3 100 w))
           H1 H2).
Defined.
